(** * The real-time session engine of the COCO voice-coaching client

    A shallow embedding of [client/src/pages/Home.tsx]: the PCM encoder
    of the capture callback, the two live-feed reducers, the inbound
    message handler of the event channel, and the three user-driven
    handlers ([handleStartRecording], [handleTogglePause],
    [handleEndSession]) together with the browser objects they drive
    (WebSocket, AudioContext, ScriptProcessorNode, MediaStream).

    Handlers are written in a small state-and-exception monad over the
    component's world; an [async] handler is cut at each [await] into the
    segments that run atomically on the single JavaScript thread, and the
    step function [step] interleaves those segments with platform events. *)

From Stdlib Require Import ZArith QArith Lia Bool.
From stdpp Require Import base option list strings.

Set Warnings "-register-all".
Local Open Scope Z_scope.

(** ** JavaScript numbers, as far as the encoder needs them *)

(** A sample read from a [Float32Array] is a binary32 value widened to a
    JavaScript number.  The encoder only compares such a value with
    [-1], [0] and [1] and multiplies it by [0x8000] or [0x7FFF]: a 24-bit
    significand times a 15- or 16-bit integer has at most 40 significant
    bits and an exponent well inside the binary64 range, so none of these
    operations rounds and exact rational arithmetic is what the engine
    computes.  Negative zero is identified with zero: it is not below
    zero, and it is stored as the integer 0. *)
Module JS.

Inductive number : Type :=
| NaN
| Infinity (negative : bool)
| Finite (q : Q).

Definition Qltb (a b : Q) : bool :=
  Z.ltb (Qnum a * Zpos (Qden b)) (Qnum b * Zpos (Qden a)).

(** [a < b]: any comparison with [NaN] is false. *)
Definition lt (a b : number) : bool :=
  match a, b with
  | NaN, _ | _, NaN => false
  | Infinity true, Infinity true => false
  | Infinity true, _ => true
  | _, Infinity true => false
  | Infinity false, _ => false
  | Finite _, Infinity false => true
  | Finite x, Finite y => Qltb x y
  end.

(** [Math.min] and [Math.max] return [NaN] as soon as one argument is. *)
Definition Math_min (a b : number) : number :=
  match a, b with
  | NaN, _ | _, NaN => NaN
  | _, _ => if lt b a then b else a
  end.

Definition Math_max (a b : number) : number :=
  match a, b with
  | NaN, _ | _, NaN => NaN
  | _, _ => if lt a b then b else a
  end.

Definition Qis_zero (q : Q) : bool := Z.eqb (Qnum q) 0.
Definition Qis_neg (q : Q) : bool := Z.ltb (Qnum q) 0.

(** [a * b]. *)
Definition mul (a b : number) : number :=
  match a, b with
  | NaN, _ | _, NaN => NaN
  | Infinity n, Infinity m => Infinity (xorb n m)
  | Infinity n, Finite q | Finite q, Infinity n =>
      if Qis_zero q then NaN else Infinity (xorb n (Qis_neg q))
  | Finite x, Finite y => Finite (x * y)
  end.

(** Truncation towards zero of a rational. *)
Definition truncate (q : Q) : Z := Z.quot (Qnum q) (Zpos (Qden q)).

(** [ToInt16] of ECMAScript, the conversion applied by a store into an
    [Int16Array]: [NaN] and the infinities become 0, a finite value is
    truncated, reduced modulo [2^16] and read as a signed 16-bit integer. *)
Definition ToInt16 (x : number) : Z :=
  match x with
  | NaN | Infinity _ => 0
  | Finite q =>
      let int16bit := (truncate q) mod 0x10000 in
      if Z.leb 0x8000 int16bit then int16bit - 0x10000 else int16bit
  end.

Definition of_Z (z : Z) : number := Finite (inject_Z z).

End JS.

(** ** The PCM encoder of [processor.onaudioprocess] *)

(** The body of the conversion loop:
    [const s = Math.max(-1, Math.min(1, inputData[i]));]
    [pcm16[i] = s < 0 ? s * 0x8000 : s * 0x7FFF;] *)
Definition pcm16_sample (x : JS.number) : Z :=
  let s := JS.Math_max (JS.of_Z (-1)) (JS.Math_min (JS.of_Z 1) x) in
  JS.ToInt16 (if JS.lt s (JS.of_Z 0)
              then JS.mul s (JS.of_Z 0x8000)
              else JS.mul s (JS.of_Z 0x7FFF)).

(** The whole loop over [inputData]: one 16-bit sample per input sample. *)
Definition pcm16 (inputData : list JS.number) : list Z :=
  map pcm16_sample inputData.

(** The clamped value [s] of the loop body, for the statements below. *)
Definition clamp (x : JS.number) : JS.number :=
  JS.Math_max (JS.of_Z (-1)) (JS.Math_min (JS.of_Z 1) x).

(** ** The live-feed reducers of [ws.onmessage] *)

(** Values produced by [JSON.parse] and by property reads.  [JUndefined]
    is what reading an absent property gives; the TypeScript field types
    are erased at run time, so the sinks store whatever value arrived. *)
Inductive JSValue : Type :=
| JUndefined
| JNull
| JBool (b : bool)
| JNumber (n : JS.number)
| JString (s : string)
| JArray (items : list JSValue)
| JObject (fields : list (string * JSValue)).

Module Suggestion.
Record t : Type := Build
  { text : JSValue; type : string; priority : string; timestamp : JSValue }.
End Suggestion.

Module TranscriptEntry.
Record t : Type := Build
  { speaker : JSValue; text : JSValue; timestamp : JSValue }.
End TranscriptEntry.

(** [prev => [{...}, ...prev].slice(0, 3)] *)
Definition add_suggestion (text timestamp : JSValue) (prev : list Suggestion.t)
  : list Suggestion.t :=
  take 3 (Suggestion.Build text "tip" "high" timestamp :: prev).

(** [prev => [...prev, {...}]] *)
Definition add_transcript (speaker text timestamp : JSValue)
    (prev : list TranscriptEntry.t) : list TranscriptEntry.t :=
  prev ++ [TranscriptEntry.Build speaker text timestamp].

(** ** The component's world *)

Inductive AppState : Type := nameEntry | contextMenu | editingContext | recording.

Record SessionContext : Type := mkContext
  { userName : string; eventDetails : string; goals : string;
    participants : string; tone : string }.

(** The [useState] cells of [Home] that the engine reads or writes.  The
    tip index, the loading progress and the edited field only drive the
    presentation and are left out. *)
Record UI : Type := mkUI
  { appState : AppState;
    context : SessionContext;
    isRecording : bool;
    isPaused : bool;
    transcriptEntries : list TranscriptEntry.t;
    suggestions : list Suggestion.t;
    isEndingSession : bool;
    showFeedback : bool;
    sessionSummary : option JSValue;
    isLoadingSession : bool }.

(** The [useRef] cells; a browser object is named by its index in the
    platform's table of objects of its kind. *)
Record Refs : Type := mkRefs
  { sessionIdRef : option string;
    wsRef : option nat;
    audioContextRef : option nat;
    audioProcessorRef : option nat;
    audioStreamRef : option nat }.

Inductive ReadyState : Type := CONNECTING | OPEN | CLOSING | CLOSED.

(** A [WebSocket], opened against [/ws/<session_id>]. *)
Record WebSocket : Type := mkWebSocket
  { ws_session_id : string; readyState : ReadyState }.

Inductive AudioContextState : Type := running | suspended | closed.

(** A [ScriptProcessorNode]: the context that owns it, whether its output
    is connected, and the environment of the closure assigned to
    [onaudioprocess]: the socket [ws] and the [isPaused] of the render in
    which [handleStartRecording] was created. *)
Record ScriptProcessor : Type := mkProcessor
  { proc_context : nat;
    connected : bool;
    onaudioprocess : option (nat * bool) }.

(** What leaves the socket: a binary frame of 16-bit samples, or a text
    frame holding [JSON.stringify v]. *)
Inductive Frame : Type :=
| Binary (samples : list Z)
| Json (v : JSValue).

(** The JSON body of [POST /session]. *)
Module Body.
Record t : Type := Build
  { context : string; goal : string; user_name : string;
    participants : string; tone : string }.
End Body.

Record JSError : Type := mkError { name : string; message : string }.

(** Calls into the platform and the outside world, in the order made. *)
Inductive Effect : Type :=
| fetch_session (body : Body.t)
| getUserMedia
| new_WebSocket (ws : nat) (session_id : string)
| new_AudioContext (ctx : nat)
| createScriptProcessor (processor : nat)
| sent (ws : nat) (f : Frame)
| ws_close (ws : nat)
| processor_disconnect (processor : nat)
| audioContext_close (ctx : nat)
| audioContext_suspend (ctx : nat)
| audioContext_resume (ctx : nat)
| tracks_stop (stream : nat)
| fetch_finish (session_id : string)
| audio_play (data : JSValue)
| console_log (label : string)
| console_error (label : string)
| toast (title : string)
| uncaught (e : JSError).

Record Platform : Type := mkPlatform
  { sockets : list WebSocket;
    contexts : list AudioContextState;
    processors : list ScriptProcessor;
    streams : list bool;          (* are the tracks of the stream live *)
    log : list Effect }.

(** Where a suspended [async] handler waits, with the variables its
    continuation closes over. *)
Inductive Task : Type :=
| StartFetching (isPaused0 : bool)
| StartParsing (isPaused0 : bool)
| StartAcquiring (isPaused0 : bool) (session_id : string)
| EndClosing
| EndFetching
| EndParsing.

Record World : Type := mkWorld
  { ui : UI; refs : Refs; platform : Platform; task : option Task }.

Definition initial_context : SessionContext :=
  mkContext EmptyString EmptyString EmptyString EmptyString EmptyString.

Definition initial : World :=
  mkWorld
    (mkUI nameEntry initial_context false false [] [] false false None false)
    (mkRefs None None None None None)
    (mkPlatform [] [] [] [] [])
    None.

(** ** The handler monad: state over [World], with exceptions *)

Inductive Outcome (A : Type) : Type :=
| Normal (a : A)
| Thrown (e : JSError).
Arguments Normal {A} a.
Arguments Thrown {A} e.

Definition M (A : Type) : Type := World -> Outcome A * World.

Definition ret {A} (a : A) : M A := fun w => (Normal a, w).

Definition bind {A B} (c : M A) (k : A -> M B) : M B :=
  fun w => match c w with
           | (Normal a, w') => k a w'
           | (Thrown e, w') => (Thrown e, w')
           end.

Definition throw {A} (e : JSError) : M A := fun w => (Thrown e, w).

(** [try { c } catch (error) { h error }] *)
Definition try_catch {A} (c : M A) (h : JSError -> M A) : M A :=
  fun w => match c w with
           | (Normal a, w') => (Normal a, w')
           | (Thrown e, w') => h e w'
           end.

Definition get : M World := fun w => (Normal w, w).
Definition modify (f : World -> World) : M unit := fun w => (Normal tt, f w).

Declare Scope js_scope.
Delimit Scope js_scope with js.
Notation "x ← y ; z" := (bind y (fun x => z))
  (at level 20, y at level 100, z at level 200, only parsing) : js_scope.
Notation "x ;; z" := (bind x (fun _ => z))
  (at level 100, z at level 200, only parsing, right associativity) : js_scope.
Local Open Scope js_scope.

(** *** Field updates *)

Definition with_ui (f : UI -> UI) (w : World) : World :=
  mkWorld (f (ui w)) (refs w) (platform w) (task w).
Definition with_refs (f : Refs -> Refs) (w : World) : World :=
  mkWorld (ui w) (f (refs w)) (platform w) (task w).
Definition with_platform (f : Platform -> Platform) (w : World) : World :=
  mkWorld (ui w) (refs w) (f (platform w)) (task w).
Definition with_task (t : option Task) (w : World) : World :=
  mkWorld (ui w) (refs w) (platform w) t.

Definition set_appState (a : AppState) (u : UI) : UI :=
  mkUI a (context u) (isRecording u) (isPaused u) (transcriptEntries u)
    (suggestions u) (isEndingSession u) (showFeedback u) (sessionSummary u)
    (isLoadingSession u).
Definition set_context (c : SessionContext) (u : UI) : UI :=
  mkUI (appState u) c (isRecording u) (isPaused u) (transcriptEntries u)
    (suggestions u) (isEndingSession u) (showFeedback u) (sessionSummary u)
    (isLoadingSession u).
Definition set_isRecording (b : bool) (u : UI) : UI :=
  mkUI (appState u) (context u) b (isPaused u) (transcriptEntries u)
    (suggestions u) (isEndingSession u) (showFeedback u) (sessionSummary u)
    (isLoadingSession u).
Definition set_isPaused (b : bool) (u : UI) : UI :=
  mkUI (appState u) (context u) (isRecording u) b (transcriptEntries u)
    (suggestions u) (isEndingSession u) (showFeedback u) (sessionSummary u)
    (isLoadingSession u).
Definition set_transcriptEntries
    (f : list TranscriptEntry.t -> list TranscriptEntry.t) (u : UI) : UI :=
  mkUI (appState u) (context u) (isRecording u) (isPaused u)
    (f (transcriptEntries u)) (suggestions u) (isEndingSession u)
    (showFeedback u) (sessionSummary u) (isLoadingSession u).
Definition set_suggestions
    (f : list Suggestion.t -> list Suggestion.t) (u : UI) : UI :=
  mkUI (appState u) (context u) (isRecording u) (isPaused u)
    (transcriptEntries u) (f (suggestions u)) (isEndingSession u)
    (showFeedback u) (sessionSummary u) (isLoadingSession u).
Definition set_isEndingSession (b : bool) (u : UI) : UI :=
  mkUI (appState u) (context u) (isRecording u) (isPaused u)
    (transcriptEntries u) (suggestions u) b (showFeedback u)
    (sessionSummary u) (isLoadingSession u).
Definition set_showFeedback (b : bool) (u : UI) : UI :=
  mkUI (appState u) (context u) (isRecording u) (isPaused u)
    (transcriptEntries u) (suggestions u) (isEndingSession u) b
    (sessionSummary u) (isLoadingSession u).
Definition set_sessionSummary (s : option JSValue) (u : UI) : UI :=
  mkUI (appState u) (context u) (isRecording u) (isPaused u)
    (transcriptEntries u) (suggestions u) (isEndingSession u)
    (showFeedback u) s (isLoadingSession u).
Definition set_isLoadingSession (b : bool) (u : UI) : UI :=
  mkUI (appState u) (context u) (isRecording u) (isPaused u)
    (transcriptEntries u) (suggestions u) (isEndingSession u)
    (showFeedback u) (sessionSummary u) b.

Definition set_sessionIdRef (v : option string) (r : Refs) : Refs :=
  mkRefs v (wsRef r) (audioContextRef r) (audioProcessorRef r) (audioStreamRef r).
Definition set_wsRef (v : option nat) (r : Refs) : Refs :=
  mkRefs (sessionIdRef r) v (audioContextRef r) (audioProcessorRef r)
    (audioStreamRef r).
Definition set_audioContextRef (v : option nat) (r : Refs) : Refs :=
  mkRefs (sessionIdRef r) (wsRef r) v (audioProcessorRef r) (audioStreamRef r).
Definition set_audioProcessorRef (v : option nat) (r : Refs) : Refs :=
  mkRefs (sessionIdRef r) (wsRef r) (audioContextRef r) v (audioStreamRef r).
Definition set_audioStreamRef (v : option nat) (r : Refs) : Refs :=
  mkRefs (sessionIdRef r) (wsRef r) (audioContextRef r) (audioProcessorRef r) v.

Definition set_sockets (l : list WebSocket) (p : Platform) : Platform :=
  mkPlatform l (contexts p) (processors p) (streams p) (log p).
Definition set_contexts (l : list AudioContextState) (p : Platform) : Platform :=
  mkPlatform (sockets p) l (processors p) (streams p) (log p).
Definition set_processors (l : list ScriptProcessor) (p : Platform) : Platform :=
  mkPlatform (sockets p) (contexts p) l (streams p) (log p).
Definition set_streams (l : list bool) (p : Platform) : Platform :=
  mkPlatform (sockets p) (contexts p) (processors p) l (log p).
Definition add_log (e : Effect) (p : Platform) : Platform :=
  mkPlatform (sockets p) (contexts p) (processors p) (streams p) (log p ++ [e]).

(** *** React state setters and ref assignments *)

Definition setAppState (a : AppState) : M unit := modify (with_ui (set_appState a)).
Definition setIsRecording (b : bool) : M unit := modify (with_ui (set_isRecording b)).
Definition setIsPaused (b : bool) : M unit := modify (with_ui (set_isPaused b)).
Definition setTranscriptEntries (f : list TranscriptEntry.t -> list TranscriptEntry.t)
  : M unit := modify (with_ui (set_transcriptEntries f)).
Definition setSuggestions (f : list Suggestion.t -> list Suggestion.t) : M unit :=
  modify (with_ui (set_suggestions f)).
Definition setIsEndingSession (b : bool) : M unit :=
  modify (with_ui (set_isEndingSession b)).
Definition setShowFeedback (b : bool) : M unit := modify (with_ui (set_showFeedback b)).
Definition setSessionSummary (s : JSValue) : M unit :=
  modify (with_ui (set_sessionSummary (Some s))).
Definition setIsLoadingSession (b : bool) : M unit :=
  modify (with_ui (set_isLoadingSession b)).

Definition assign_sessionIdRef (v : option string) : M unit :=
  modify (with_refs (set_sessionIdRef v)).
Definition assign_wsRef (v : option nat) : M unit :=
  modify (with_refs (set_wsRef v)).
Definition assign_audioContextRef (v : option nat) : M unit :=
  modify (with_refs (set_audioContextRef v)).
Definition assign_audioProcessorRef (v : option nat) : M unit :=
  modify (with_refs (set_audioProcessorRef v)).
Definition assign_audioStreamRef (v : option nat) : M unit :=
  modify (with_refs (set_audioStreamRef v)).

(** [await]: the handler is suspended until the platform settles the
    promise; the rest of it is the continuation named by the task. *)
Definition await (t : Task) : M unit := modify (with_task (Some t)).

Definition emit (e : Effect) : M unit := modify (with_platform (add_log e)).

(** ** Browser objects *)

(** The idealisations made of the platform: a state change requested of
    an [AudioContext] ([suspend], [resume], [close]) and of a [WebSocket]
    ([close]) is visible as soon as the call returns; a fresh
    [AudioContext] is running; an index that names no object reads as a
    closed one. *)

Definition InvalidStateError : JSError := mkError "InvalidStateError" "invalid state".
Definition SyntaxError : JSError := mkError "SyntaxError" "unexpected token".
Definition TypeError : JSError := mkError "TypeError" "cannot read properties".
Definition Error (message : string) : JSError := mkError "Error" message.

Definition set_readyState (rs : ReadyState) (s : WebSocket) : WebSocket :=
  mkWebSocket (ws_session_id s) rs.
Definition set_connected (b : bool) (p : ScriptProcessor) : ScriptProcessor :=
  mkProcessor (proc_context p) b (onaudioprocess p).
Definition set_onaudioprocess (h : nat * bool) (p : ScriptProcessor)
  : ScriptProcessor :=
  mkProcessor (proc_context p) (connected p) (Some h).

Definition socket_state (w : World) (ws : nat) : ReadyState :=
  default CLOSED (readyState <$> sockets (platform w) !! ws).
Definition context_state (w : World) (ctx : nat) : AudioContextState :=
  default closed (contexts (platform w) !! ctx).

Definition ws_readyState (ws : nat) : M ReadyState :=
  w ← get; ret (socket_state w ws).

Definition audioContext_state (ctx : nat) : M AudioContextState :=
  w ← get; ret (context_state w ctx).

(** [new WebSocket(`${wsUrl}/ws/${session_id}`)] *)
Definition WebSocket_new (session_id : string) : M nat :=
  w ← get;
  let ws := length (sockets (platform w)) in
  modify (with_platform (fun p =>
    set_sockets (sockets p ++ [mkWebSocket session_id CONNECTING]) p)) ;;
  emit (new_WebSocket ws session_id) ;;
  ret ws.

(** [ws.send(data)]: throws while the socket is connecting, transmits
    while it is open, and discards the data once it is closing or closed. *)
Definition WebSocket_send (ws : nat) (f : Frame) : M unit :=
  rs ← ws_readyState ws;
  match rs with
  | CONNECTING => throw InvalidStateError
  | OPEN => emit (sent ws f)
  | CLOSING | CLOSED => ret tt
  end.

(** [ws.close()] *)
Definition WebSocket_close (ws : nat) : M unit :=
  rs ← ws_readyState ws;
  match rs with
  | CONNECTING | OPEN =>
      modify (with_platform (fun p =>
        set_sockets (alter (set_readyState CLOSING) ws (sockets p)) p)) ;;
      emit (ws_close ws)
  | CLOSING | CLOSED => ret tt
  end.

(** [new AudioContext({ sampleRate: 16000 })] *)
Definition AudioContext_new : M nat :=
  w ← get;
  let ctx := length (contexts (platform w)) in
  modify (with_platform (fun p => set_contexts (contexts p ++ [running]) p)) ;;
  emit (new_AudioContext ctx) ;;
  ret ctx.

Definition set_context_state (ctx : nat) (s : AudioContextState) : M unit :=
  modify (with_platform (fun p => set_contexts (<[ctx := s]> (contexts p)) p)).

(** [audioContext.suspend()] and [audioContext.resume()].  Neither is
    awaited by the handler; on a closed context the promise rejects
    unobserved and nothing changes. *)
Definition AudioContext_suspend (ctx : nat) : M unit :=
  st ← audioContext_state ctx;
  match st with
  | closed => ret tt
  | running | suspended =>
      set_context_state ctx suspended ;; emit (audioContext_suspend ctx)
  end.
Definition AudioContext_resume (ctx : nat) : M unit :=
  st ← audioContext_state ctx;
  match st with
  | closed => ret tt
  | running | suspended =>
      set_context_state ctx running ;; emit (audioContext_resume ctx)
  end.

(** [audioContext.close()]: the promise of a context that is already
    closed rejects, which the awaiting handler sees as an exception. *)
Definition AudioContext_close (ctx : nat) : M unit :=
  st ← audioContext_state ctx;
  match st with
  | closed => throw InvalidStateError
  | running | suspended =>
      set_context_state ctx closed ;; emit (audioContext_close ctx)
  end.

(** [audioContext.createScriptProcessor(4096, 1, 1)] *)
Definition AudioContext_createScriptProcessor (ctx : nat) : M nat :=
  w ← get;
  let processor := length (processors (platform w)) in
  modify (with_platform (fun p =>
    set_processors (processors p ++ [mkProcessor ctx false None]) p)) ;;
  emit (createScriptProcessor processor) ;;
  ret processor.

(** [source.connect(processor); processor.connect(audioContext.destination)] *)
Definition processor_connect (processor : nat) : M unit :=
  modify (with_platform (fun p =>
    set_processors (alter (set_connected true) processor (processors p)) p)).

(** [processor.disconnect()] *)
Definition ScriptProcessor_disconnect (processor : nat) : M unit :=
  modify (with_platform (fun p =>
    set_processors (alter (set_connected false) processor (processors p)) p)) ;;
  emit (processor_disconnect processor).

(** [processor.onaudioprocess = (e) => { ... }], closing over [ws] and
    over the [isPaused] of the handler's render. *)
Definition assign_onaudioprocess (processor ws : nat) (isPaused0 : bool) : M unit :=
  modify (with_platform (fun p =>
    set_processors
      (alter (set_onaudioprocess (ws, isPaused0)) processor (processors p)) p)).

(** The stream a fulfilled [getUserMedia] hands over: its tracks are live. *)
Definition MediaStream_new : M nat :=
  w ← get;
  let stream := length (streams (platform w)) in
  modify (with_platform (fun p => set_streams (streams p ++ [true]) p)) ;;
  ret stream.

(** [stream.getTracks().forEach(track => track.stop())] *)
Definition MediaStream_stop (stream : nat) : M unit :=
  modify (with_platform (fun p => set_streams (<[stream := false]> (streams p)) p)) ;;
  emit (tracks_stop stream).

(** ** Inbound messages: [ws.onmessage] *)

(** [event.data] of a message event, by what [JSON.parse] makes of it:
    a text that is not JSON, or the JSON text of a value (which then
    holds no [JUndefined], and lists each key of an object once). *)
Inductive EventData : Type :=
| NotJSON (text : string)
| JSONText (v : JSValue).

Definition JSON_parse (data : EventData) : M JSValue :=
  match data with
  | NotJSON _ => throw SyntaxError
  | JSONText v => ret v
  end.

Fixpoint assoc (key : string) (fields : list (string * JSValue)) : JSValue :=
  match fields with
  | [] => JUndefined
  | (k, v) :: rest => if String.eqb k key then v else assoc key rest
  end.

(** [message.key] for the keys the handler reads ([type], [text],
    [speaker], [timestamp], [data]): a [TypeError] on [null], the field
    of an object, and [undefined] on any other value, none of which has
    such a property. *)
Definition get_property (message : JSValue) (key : string) : M JSValue :=
  match message with
  | JUndefined | JNull => throw TypeError
  | JObject fields => ret (assoc key fields)
  | _ => ret JUndefined
  end.

(** [v === 'literal'] *)
Definition strict_eq_string (v : JSValue) (literal : string) : bool :=
  match v with
  | JString s => String.eqb s literal
  | _ => false
  end.

(** The [audio] branch: decode, wrap and play; a failure of the decoding
    is caught and logged inside the branch.  Either way control returns
    normally and no state of the component is touched. *)
Definition play_audio (data : JSValue) : M unit :=
  try_catch (emit (audio_play data))
            (fun _ => emit (console_error "Error playing audio:")).

Definition ws_onmessage (data : EventData) : M unit :=
  message ← JSON_parse data;
  emit (console_log "WebSocket message:") ;;
  type ← get_property message "type";
  if strict_eq_string type "suggestion" then
    text ← get_property message "text";
    timestamp ← get_property message "timestamp";
    setSuggestions (add_suggestion text timestamp)
  else if strict_eq_string type "transcript" then
    speaker ← get_property message "speaker";
    text ← get_property message "text";
    timestamp ← get_property message "timestamp";
    setTranscriptEntries (add_transcript speaker text timestamp)
  else if strict_eq_string type "audio" then
    data ← get_property message "data";
    play_audio data
  else ret tt.

Definition ws_onopen : M unit := emit (console_log "WebSocket connected").

Definition ws_onerror : M unit :=
  emit (console_error "WebSocket error:") ;;
  emit (toast "Connection Error").

Definition ws_onclose : M unit := emit (console_log "WebSocket closed").

(** ** The capture callback: [processor.onaudioprocess] *)

Definition is_OPEN (rs : ReadyState) : bool :=
  match rs with OPEN => true | _ => false end.

(** [ws] and [isPaused] are the variables of the closure, fixed when the
    callback was assigned; [inputData] is the buffer of this invocation. *)
Definition processor_onaudioprocess (ws : nat) (isPaused : bool)
    (inputData : list JS.number) : M unit :=
  rs ← ws_readyState ws;
  if is_OPEN rs && negb isPaused then
    WebSocket_send ws (Binary (pcm16 inputData))
  else ret tt.

(** ** [handleStartRecording] *)

(** [a || b] on strings: the empty string is the only falsy one. *)
Definition js_or (a b : string) : string :=
  match a with
  | EmptyString => b
  | _ => a
  end.

(** The object given to [JSON.stringify] for the creation request. *)
Definition session_request (c : SessionContext) : Body.t :=
  Body.Build
    (js_or (eventDetails c) "General conversation")
    (js_or (goals c) "Have a great conversation")
    (userName c)
    (js_or (participants c) EmptyString)
    (js_or (tone c) EmptyString).

Inductive FetchResult : Type :=
| FetchRejected (e : JSError)
| FetchResponse (ok : bool).

(** [await response.json()] of the creation response: the backend
    answers with an object whose [session_id] is a string. *)
Inductive SessionJson : Type :=
| SessionJsonRejected (e : JSError)
| SessionData (session_id : string).

Inductive MediaResult : Type :=
| MediaRejected (e : JSError)
| MediaStream.

(** The [catch] block. *)
Definition handleStartRecording_catch (error : JSError) : M unit :=
  emit (console_error "Microphone permission error:") ;;
  setIsLoadingSession false ;;
  if String.eqb (name error) "NotAllowedError"
     || String.eqb (name error) "PermissionDeniedError"
  then emit (toast "Microphone Access Blocked")
  else if String.eqb (name error) "NotFoundError"
  then emit (toast "No Microphone Found")
  else emit (toast "Microphone Error").

(** From the click to [await fetch(...)]. *)
Definition handleStartRecording : M unit :=
  w ← get;
  let render := ui w in
  try_catch
    (setIsLoadingSession true ;;
     emit (fetch_session (session_request (context render))) ;;
     await (StartFetching (isPaused render)))
    handleStartRecording_catch.

(** From the settled [fetch] to [await response.json()]. *)
Definition handleStartRecording_fetched (isPaused0 : bool) (r : FetchResult)
  : M unit :=
  try_catch
    (match r with
     | FetchRejected e => throw e
     | FetchResponse ok =>
         if negb ok then throw (Error "Failed to create session")
         else await (StartParsing isPaused0)
     end)
    handleStartRecording_catch.

(** From the parsed response to [await getUserMedia(...)]. *)
Definition handleStartRecording_parsed (isPaused0 : bool) (r : SessionJson)
  : M unit :=
  try_catch
    (match r with
     | SessionJsonRejected e => throw e
     | SessionData session_id =>
         assign_sessionIdRef (Some session_id) ;;
         emit (console_log "Session created:") ;;
         emit getUserMedia ;;
         await (StartAcquiring isPaused0 session_id)
     end)
    handleStartRecording_catch.

(** From the settled [getUserMedia] to the end of the handler. *)
Definition handleStartRecording_acquired (isPaused0 : bool) (session_id : string)
    (r : MediaResult) : M unit :=
  try_catch
    (match r with
     | MediaRejected e => throw e
     | MediaStream =>
         stream ← MediaStream_new;
         assign_audioStreamRef (Some stream) ;;
         setAppState recording ;;
         setIsRecording true ;;
         setIsPaused false ;;
         setIsLoadingSession false ;;
         ws ← WebSocket_new session_id;
         assign_wsRef (Some ws) ;;
         audioContext ← AudioContext_new;
         assign_audioContextRef (Some audioContext) ;;
         processor ← AudioContext_createScriptProcessor audioContext;
         assign_audioProcessorRef (Some processor) ;;
         processor_connect processor ;;
         assign_onaudioprocess processor ws isPaused0
     end)
    handleStartRecording_catch.

(** ** [handleTogglePause] *)

Definition handleTogglePause : M unit :=
  w ← get;
  let render := ui w in
  if isPaused render then
    setIsPaused false ;;
    match audioContextRef (refs w) with
    | Some ctx =>
        st ← audioContext_state ctx;
        match st with
        | suspended => AudioContext_resume ctx
        | _ => ret tt
        end
    | None => ret tt
    end
  else
    setIsPaused true ;;
    match audioContextRef (refs w) with
    | Some ctx =>
        st ← audioContext_state ctx;
        match st with
        | running => AudioContext_suspend ctx
        | _ => ret tt
        end
    | None => ret tt
    end.

(** ** [handleEndSession] *)

(** The argument of [JSON.stringify] in [wsRef.current.send(...)]. *)
Definition stop_message : JSValue := JObject [("type", JString "stop")].

(** Truthiness of [sessionIdRef.current]. *)
Definition truthy (v : option string) : bool :=
  match v with
  | Some (String _ _) => true
  | _ => false
  end.

Inductive SummaryJson : Type :=
| SummaryRejected (e : JSError)
| SummaryData (summary : JSValue).

(** The four statements after the [try] statement. *)
Definition handleEndSession_reset : M unit :=
  setTranscriptEntries (fun _ => []) ;;
  setSuggestions (fun _ => []) ;;
  assign_sessionIdRef None ;;
  setAppState contextMenu.

(** The [catch] and the [finally] block of the summary request. *)
Definition handleEndSession_catch (error : JSError) : M unit :=
  emit (console_error "Error getting session summary:") ;;
  emit (toast "Error").

Definition handleEndSession_finally : M unit := setIsEndingSession false.

(** [if (audioStreamRef.current) { ... }] *)
Definition stop_audio_stream : M unit :=
  w ← get;
  match audioStreamRef (refs w) with
  | Some stream => MediaStream_stop stream ;; assign_audioStreamRef None
  | None => ret tt
  end.

(** [if (wsRef.current) { ... }] *)
Definition close_websocket : M unit :=
  w ← get;
  match wsRef (refs w) with
  | Some ws =>
      WebSocket_send ws (Json stop_message) ;;
      WebSocket_close ws ;;
      assign_wsRef None
  | None => ret tt
  end.

(** [if (sessionIdRef.current) { try { await fetch(...) ... ]: up to the
    [await], or straight to the closing statements when there is no
    session id. *)
Definition get_session_summary : M unit :=
  w ← get;
  if truthy (sessionIdRef (refs w)) then
    emit (fetch_finish (default EmptyString (sessionIdRef (refs w)))) ;;
    await EndFetching
  else handleEndSession_reset.

(** From the stream release to [await fetch(.../finish)]. *)
Definition handleEndSession_release : M unit :=
  stop_audio_stream ;; close_websocket ;; get_session_summary.

(** [if (audioProcessorRef.current) { ... }] *)
Definition disconnect_processor : M unit :=
  w ← get;
  match audioProcessorRef (refs w) with
  | Some processor =>
      ScriptProcessor_disconnect processor ;; assign_audioProcessorRef None
  | None => ret tt
  end.

(** From the click to [await audioContextRef.current.close()]; without
    an audio context the handler runs on to the summary request. *)
Definition handleEndSession : M unit :=
  setIsEndingSession true ;;
  setIsRecording false ;;
  setIsPaused false ;;
  disconnect_processor ;;
  w ← get;
  match audioContextRef (refs w) with
  | Some ctx => AudioContext_close ctx ;; await EndClosing
  | None => handleEndSession_release
  end.

(** After the context has closed. *)
Definition handleEndSession_closed : M unit :=
  assign_audioContextRef None ;; handleEndSession_release.

(** After the summary request has settled. *)
Definition handleEndSession_fetched (r : FetchResult) : M unit :=
  match r with
  | FetchRejected e =>
      handleEndSession_catch e ;; handleEndSession_finally ;; handleEndSession_reset
  | FetchResponse true => await EndParsing
  | FetchResponse false => handleEndSession_finally ;; handleEndSession_reset
  end.

(** After [await response.json()] of a successful summary response. *)
Definition handleEndSession_parsed (r : SummaryJson) : M unit :=
  match r with
  | SummaryRejected e => handleEndSession_catch e
  | SummaryData summary =>
      emit (console_log "Session summary:") ;;
      setSessionSummary summary ;;
      setShowFeedback true
  end ;;
  handleEndSession_finally ;;
  handleEndSession_reset.

(** ** The event loop *)

(** What can happen next.  The context-entry screens are a collaborator
    of the engine: [Workflow] stands for any of their actions, which may
    rewrite the five context fields and move among the three screens
    that are not the recording screen. *)
Inductive Event : Type :=
| Workflow (a : AppState) (c : SessionContext)
| ClickStart
| ClickTogglePause
| ClickEnd
| CloseFeedback
| SessionFetchSettled (r : FetchResult)
| SessionJsonSettled (r : SessionJson)
| GetUserMediaSettled (r : MediaResult)
| ContextCloseSettled
| FinishFetchSettled (r : FetchResult)
| FinishJsonSettled (r : SummaryJson)
| SocketOpened (ws : nat)
| SocketMessage (ws : nat) (data : EventData)
| SocketFailed (ws : nat)
| SocketClosed (ws : nat)
| AudioProcess (processor : nat) (inputData : list JS.number).

(** A handler that throws leaves the changes it made; the browser
    reports the exception and the event loop goes on. *)
Definition run (h : M unit) (w : World) : World :=
  match h w with
  | (Normal _, w') => w'
  | (Thrown e, w') => with_platform (add_log (uncaught e)) w'
  end.

Definition is_recording (a : AppState) : bool :=
  match a with recording => true | _ => false end.

(** Both dialogs are modal: while one is open nothing behind it can be
    clicked.  The loading dialog is taken down by the handler only. *)
Definition modal_open (u : UI) : bool := isLoadingSession u || showFeedback u.

(** The start button is rendered on the context menu. *)
Definition start_button (u : UI) : bool :=
  match appState u with
  | contextMenu => negb (modal_open u)
  | _ => false
  end.

(** The pause and end buttons are rendered on the recording screen
    while [isEndingSession] is false. *)
Definition session_controls (u : UI) : bool :=
  is_recording (appState u) && negb (isEndingSession u) && negb (modal_open u).

Definition set_socket_state (ws : nat) (rs : ReadyState) (w : World) : World :=
  with_platform (fun p =>
    set_sockets (alter (set_readyState rs) ws (sockets p)) p) w.

(** One turn of the event loop; [None] when the event cannot occur in
    this world.  A click starts a handler only when no handler is
    suspended; [click_finds_no_task] shows that the buttons are never
    shown otherwise. *)
Definition step (w : World) (e : Event) : option World :=
  match e with
  | Workflow a c =>
      if negb (is_recording (appState (ui w))) && negb (is_recording a)
         && negb (modal_open (ui w))
      then Some (with_ui (fun u => set_appState a (set_context c u)) w)
      else None
  | ClickStart =>
      match task w with
      | None => if start_button (ui w) then Some (run handleStartRecording w) else None
      | Some _ => None
      end
  | ClickTogglePause =>
      match task w with
      | None => if session_controls (ui w) then Some (run handleTogglePause w) else None
      | Some _ => None
      end
  | ClickEnd =>
      match task w with
      | None => if session_controls (ui w) then Some (run handleEndSession w) else None
      | Some _ => None
      end
  | CloseFeedback =>
      if showFeedback (ui w) then Some (run (setShowFeedback false) w) else None
  | SessionFetchSettled r =>
      match task w with
      | Some (StartFetching isPaused0) =>
          Some (run (handleStartRecording_fetched isPaused0 r) (with_task None w))
      | _ => None
      end
  | SessionJsonSettled r =>
      match task w with
      | Some (StartParsing isPaused0) =>
          Some (run (handleStartRecording_parsed isPaused0 r) (with_task None w))
      | _ => None
      end
  | GetUserMediaSettled r =>
      match task w with
      | Some (StartAcquiring isPaused0 session_id) =>
          Some (run (handleStartRecording_acquired isPaused0 session_id r)
                    (with_task None w))
      | _ => None
      end
  | ContextCloseSettled =>
      match task w with
      | Some EndClosing => Some (run handleEndSession_closed (with_task None w))
      | _ => None
      end
  | FinishFetchSettled r =>
      match task w with
      | Some EndFetching => Some (run (handleEndSession_fetched r) (with_task None w))
      | _ => None
      end
  | FinishJsonSettled r =>
      match task w with
      | Some EndParsing => Some (run (handleEndSession_parsed r) (with_task None w))
      | _ => None
      end
  | SocketOpened ws =>
      match sockets (platform w) !! ws with
      | Some (mkWebSocket _ CONNECTING) =>
          Some (run ws_onopen (set_socket_state ws OPEN w))
      | _ => None
      end
  | SocketMessage ws data =>
      match sockets (platform w) !! ws with
      | Some (mkWebSocket _ OPEN) => Some (run (ws_onmessage data) w)
      | _ => None
      end
  | SocketFailed ws =>
      match sockets (platform w) !! ws with
      | Some (mkWebSocket _ CLOSED) | None => None
      | Some _ => Some (run (ws_onerror ;; ws_onclose) (set_socket_state ws CLOSED w))
      end
  | SocketClosed ws =>
      match sockets (platform w) !! ws with
      | Some (mkWebSocket _ OPEN) | Some (mkWebSocket _ CLOSING) =>
          Some (run ws_onclose (set_socket_state ws CLOSED w))
      | _ => None
      end
  | AudioProcess processor inputData =>
      match processors (platform w) !! processor with
      | Some (mkProcessor ctx true (Some (ws, isPaused0))) =>
          match context_state w ctx with
          | running => Some (run (processor_onaudioprocess ws isPaused0 inputData) w)
          | _ => None
          end
      | _ => None
      end
  end.

(** A run of the event loop. *)
Fixpoint exec (w : World) (events : list Event) : option World :=
  match events with
  | [] => Some w
  | e :: rest =>
      match step w e with
      | Some w' => exec w' rest
      | None => None
      end
  end.

Definition reachable (w : World) : Prop :=
  exists events, exec initial events = Some w.

(** ** Cleanup on unmount *)

(** The function returned by the last [useEffect]: it reads the refs when
    the component unmounts.  Nothing is awaited, so the rejected promise
    of closing a context that is already closed goes unobserved; the
    socket is closed without a stop message, and no ref is cleared. *)
Definition cleanup_on_unmount : M unit :=
  w ← get;
  match audioProcessorRef (refs w) with
  | Some processor => ScriptProcessor_disconnect processor
  | None => ret tt
  end ;;
  match audioContextRef (refs w) with
  | Some ctx => try_catch (AudioContext_close ctx) (fun _ => ret tt)
  | None => ret tt
  end ;;
  match audioStreamRef (refs w) with
  | Some stream => MediaStream_stop stream
  | None => ret tt
  end ;;
  match wsRef (refs w) with
  | Some ws => WebSocket_close ws
  | None => ret tt
  end.

(** ** Vocabulary of the statements *)

Definition socket_live (s : WebSocket) : bool :=
  match readyState s with
  | CONNECTING | OPEN => true
  | CLOSING | CLOSED => false
  end.

Definition socket_shut (s : WebSocket) : bool := negb (socket_live s).

Definition is_closed (c : AudioContextState) : bool :=
  match c with closed => true | _ => false end.


(** The binary frames that left on socket [ws], oldest first. *)
Fixpoint binary_frames (ws : nat) (l : list Effect) : list (list Z) :=
  match l with
  | [] => []
  | sent ws' (Binary samples) :: rest =>
      if Nat.eqb ws ws' then samples :: binary_frames ws rest
      else binary_frames ws rest
  | _ :: rest => binary_frames ws rest
  end.

Definition is_toast (e : Effect) : bool :=
  match e with toast _ => true | _ => false end.

Definition is_fetch_finish (e : Effect) : bool :=
  match e with fetch_finish _ => true | _ => false end.

(** The frames that left on any socket, oldest first. *)
Fixpoint sent_frames (l : list Effect) : list (nat * Frame) :=
  match l with
  | [] => []
  | sent ws f :: rest => (ws, f) :: sent_frames rest
  | _ :: rest => sent_frames rest
  end.

(** No browser object is still in use. *)
Definition quiet (p : Platform) : Prop :=
  (forall i s, sockets p !! i = Some s -> socket_live s = false) /\
  (forall i c, contexts p !! i = Some c -> c = closed) /\
  (forall i x, processors p !! i = Some x -> connected x = false) /\
  (forall i b, streams p !! i = Some b -> b = false).

(** Nothing of the capture pipeline or the channel is held or running. *)
Definition released (w : World) : Prop :=
  wsRef (refs w) = None /\
  audioContextRef (refs w) = None /\
  audioProcessorRef (refs w) = None /\
  audioStreamRef (refs w) = None /\
  (forall i s, sockets (platform w) !! i = Some s -> socket_live s = false) /\
  (forall i c, contexts (platform w) !! i = Some c -> c = closed) /\
  (forall i p, processors (platform w) !! i = Some p -> connected p = false) /\
  (forall i b, streams (platform w) !! i = Some b -> b = false).



(** Messages that [ws.onmessage] classifies as transcript entries, resp.
    suggestions: the text parses and its [type] is the discriminator. *)
Definition message_type_is (literal : string) (data : EventData) : bool :=
  match data with
  | JSONText (JObject fields) => strict_eq_string (assoc "type" fields) literal
  | _ => false
  end.

(** The transcript messages received since the session started, counted
    along a run of the event loop: the count starts afresh when
    [getUserMedia] hands over the stream and the session becomes active. *)
Definition count_transcript (n : nat) (e : Event) : nat :=
  match e with
  | GetUserMediaSettled MediaStream => 0%nat
  | SocketMessage _ data => if message_type_is "transcript" data then S n else n
  | _ => n
  end.

Definition transcripts_since_start (events : list Event) : nat :=
  fold_left count_transcript events 0%nat.

(** The events with which [handleEndSession] reaches its last statements. *)
Definition ends_session (e : Event) : bool :=
  match e with
  | ClickEnd | ContextCloseSettled | FinishFetchSettled _ | FinishJsonSettled _ => true
  | _ => false
  end.



(** ** The invariant of the event loop *)

Record Inv (w : World) : Prop := mkInv
  { (* an object still in use is the one the component refers to *)
    inv_sockets : forall i s, sockets (platform w) !! i = Some s ->
      socket_live s = true -> wsRef (refs w) = Some i;
    inv_contexts : forall i c, contexts (platform w) !! i = Some c ->
      c <> closed -> audioContextRef (refs w) = Some i;
    inv_processors : forall i p, processors (platform w) !! i = Some p ->
      connected p = true -> audioProcessorRef (refs w) = Some i;
    inv_streams : forall i, streams (platform w) !! i = Some true ->
      audioStreamRef (refs w) = Some i;
    (* while the processor is referred to, the pipeline is complete *)
    inv_capture : forall processor, audioProcessorRef (refs w) = Some processor ->
      exists ctx ws stream,
        processors (platform w) !! processor
          = Some (mkProcessor ctx true (Some (ws, false))) /\
        audioContextRef (refs w) = Some ctx /\
        wsRef (refs w) = Some ws /\
        audioStreamRef (refs w) = Some stream /\
        contexts (platform w) !! ctx
          = Some (if isPaused (ui w) then suspended else running) /\
        is_Some (sockets (platform w) !! ws) /\
        streams (platform w) !! stream = Some true /\
        appState (ui w) = recording /\
        task w = None /\
        showFeedback (ui w) = false;
    inv_paused : isPaused (ui w) = true ->
      is_Some (audioProcessorRef (refs w)) /\ isEndingSession (ui w) = false;
    (* the recording screen with its controls shown has a pipeline *)
    inv_live : appState (ui w) = recording -> isEndingSession (ui w) = false ->
      is_Some (audioProcessorRef (refs w));
    inv_idle : appState (ui w) <> recording ->
      wsRef (refs w) = None /\ audioContextRef (refs w) = None /\
      audioProcessorRef (refs w) = None /\ audioStreamRef (refs w) = None /\
      transcriptEntries (ui w) = [] /\ suggestions (ui w) = [] /\
      isRecording (ui w) = false;
    inv_task :
      match task w with
      | Some (StartFetching b) | Some (StartParsing b) =>
          b = false /\ appState (ui w) = contextMenu /\
          isLoadingSession (ui w) = true /\ showFeedback (ui w) = false
      | Some (StartAcquiring b session_id) =>
          b = false /\ appState (ui w) = contextMenu /\
          isLoadingSession (ui w) = true /\ showFeedback (ui w) = false /\
          sessionIdRef (refs w) = Some session_id
      | Some EndClosing =>
          appState (ui w) = recording /\ isEndingSession (ui w) = true /\
          isLoadingSession (ui w) = false /\ isRecording (ui w) = false /\
          audioProcessorRef (refs w) = None /\
          (forall i c, contexts (platform w) !! i = Some c -> c = closed)
      | Some EndFetching | Some EndParsing =>
          appState (ui w) = recording /\ isEndingSession (ui w) = true /\
          isLoadingSession (ui w) = false /\ isRecording (ui w) = false /\
          audioProcessorRef (refs w) = None /\
          audioContextRef (refs w) = None /\
          audioStreamRef (refs w) = None /\ wsRef (refs w) = None
      | None => isLoadingSession (ui w) = false
      end;
    inv_closures : forall i p ws b, processors (platform w) !! i = Some p ->
      onaudioprocess p = Some (ws, b) -> b = false;
    inv_suggestions : (length (suggestions (ui w)) <= 3)%nat }.

(** The ordering invariant of a socket's outbound traffic. *)
Record Ordered (w : World) : Prop := mkOrdered
  { ord_shut : forall i ws v, log (platform w) !! i = Some (sent ws (Json v)) ->
      exists s, sockets (platform w) !! ws = Some s /\ socket_live s = false;
    ord_frames : forall i j ws v samples,
      log (platform w) !! i = Some (sent ws (Json v)) ->
      log (platform w) !! j = Some (sent ws (Binary samples)) ->
      (j < i)%nat;
    ord_stop : forall i ws v, log (platform w) !! i = Some (sent ws (Json v)) ->
      v = stop_message }.

(** The scaled value before truncation: negative samples by [0x8000],
    the others by [0x7FFF]. *)
Definition scale (s : Q) : Q :=
  (s * (if JS.Qltb s 0 then inject_Z 0x8000 else inject_Z 0x7FFF))%Q.


(** At most one text frame leaves on a socket. *)
Definition one_stop (w : World) : Prop :=
  forall i j ws v v',
    log (platform w) !! i = Some (sent ws (Json v)) ->
    log (platform w) !! j = Some (sent ws (Json v')) ->
    i = j.

(** ** Sample runs, used to instantiate the statements *)

Definition ana : SessionContext :=
  mkContext "Ana" EmptyString EmptyString EmptyString EmptyString.

Definition NotAllowedError : JSError :=
  mkError "NotAllowedError" "Permission denied".

(** The user enters a name, starts a session, the backend answers with
    the session id [abc]. *)
Definition creation_events : list Event :=
  [Workflow contextMenu ana; ClickStart;
   SessionFetchSettled (FetchResponse true);
   SessionJsonSettled (SessionData "abc")].

(** ... the microphone is granted and the socket connects. *)
Definition recording_events : list Event :=
  creation_events ++ [GetUserMediaSettled MediaStream; SocketOpened 0].

Definition world_after (events : list Event) : World :=
  default initial (exec initial events).

Definition acquiring_world : World := world_after creation_events.
Definition recording_world : World := world_after recording_events.
Definition paused_world : World :=
  world_after (recording_events ++ [ClickTogglePause]).

Definition connecting_world : World :=
  world_after (creation_events ++ [GetUserMediaSettled MediaStream]).
Definition fetching_world : World :=
  world_after (recording_events ++ [ClickEnd; ContextCloseSettled]).
Definition parsing_world : World :=
  world_after (recording_events ++
               [ClickEnd; ContextCloseSettled;
                FinishFetchSettled (FetchResponse true)]).

Definition ask_more : list (string * JSValue) :=
  [("type", JString "suggestion"); ("text", JString "ask more");
   ("timestamp", JString "t2")].

Definition failed_world : World :=
  world_after (recording_events ++ [SocketFailed 0]).

Definition sample_summary : JSValue :=
  JObject [("stars", JArray [JString "clear"]); ("wish", JString "slower")].


Definition hi_message : EventData :=
  JSONText (JObject [("type", JString "transcript"); ("speaker", JString "user");
                     ("text", JString "hi"); ("timestamp", JString "t1")]).

(** * Properties *)
Lemma Inv_initial : Inv initial.
Proof.
  constructor; cbn; try done; try lia.
Qed.

Ltac break_world w :=
  destruct w as [[app cx rec pau tr sg ending fb sm loading]
                 [sid wsr acr apr asr] [socks ctxs procs strs lg] tk].

Ltac break_inv I :=
  destruct I as [Is Ic Ip Ist Icap Ipau Ilive Iidle Itask Iclo Isug]; cbn in *.

Ltac model_in H :=
  cbv beta iota zeta delta
    [step run ret bind throw try_catch get modify
     with_ui with_refs with_platform with_task
     set_appState set_context set_isRecording set_isPaused set_transcriptEntries
     set_suggestions set_isEndingSession set_showFeedback set_sessionSummary
     set_isLoadingSession set_sessionIdRef set_wsRef set_audioContextRef
     set_audioProcessorRef set_audioStreamRef set_sockets set_contexts
     set_processors set_streams add_log
     setAppState setIsRecording setIsPaused setTranscriptEntries setSuggestions
     setIsEndingSession setShowFeedback setSessionSummary setIsLoadingSession
     assign_sessionIdRef assign_wsRef assign_audioContextRef
     assign_audioProcessorRef assign_audioStreamRef await emit
     socket_state context_state ws_readyState audioContext_state
     WebSocket_new WebSocket_send WebSocket_close AudioContext_new
     set_context_state AudioContext_suspend AudioContext_resume AudioContext_close
     AudioContext_createScriptProcessor processor_connect ScriptProcessor_disconnect
     assign_onaudioprocess MediaStream_new MediaStream_stop
     JSON_parse get_property play_audio ws_onmessage ws_onopen ws_onerror ws_onclose
     processor_onaudioprocess handleStartRecording_catch handleStartRecording
     handleStartRecording_fetched handleStartRecording_parsed
     handleStartRecording_acquired handleTogglePause
     handleEndSession_reset handleEndSession_catch handleEndSession_finally
     stop_audio_stream close_websocket get_session_summary handleEndSession_release
     disconnect_processor handleEndSession handleEndSession_closed
     handleEndSession_fetched handleEndSession_parsed
     modal_open start_button session_controls set_socket_state
     ui refs platform task
     appState context isRecording isPaused transcriptEntries suggestions
     isEndingSession showFeedback sessionSummary isLoadingSession
     sessionIdRef wsRef audioContextRef audioProcessorRef audioStreamRef
     sockets contexts processors streams log] in H.


Ltac model_goal :=
  cbv beta iota zeta delta
    [step run ret bind throw try_catch get modify
     with_ui with_refs with_platform with_task
     set_appState set_context set_isRecording set_isPaused set_transcriptEntries
     set_suggestions set_isEndingSession set_showFeedback set_sessionSummary
     set_isLoadingSession set_sessionIdRef set_wsRef set_audioContextRef
     set_audioProcessorRef set_audioStreamRef set_sockets set_contexts
     set_processors set_streams add_log
     setAppState setIsRecording setIsPaused setTranscriptEntries setSuggestions
     setIsEndingSession setShowFeedback setSessionSummary setIsLoadingSession
     assign_sessionIdRef assign_wsRef assign_audioContextRef
     assign_audioProcessorRef assign_audioStreamRef await emit
     socket_state context_state ws_readyState audioContext_state
     WebSocket_new WebSocket_send WebSocket_close AudioContext_new
     set_context_state AudioContext_suspend AudioContext_resume AudioContext_close
     AudioContext_createScriptProcessor processor_connect ScriptProcessor_disconnect
     assign_onaudioprocess MediaStream_new MediaStream_stop
     JSON_parse get_property play_audio ws_onmessage ws_onopen ws_onerror ws_onclose
     processor_onaudioprocess handleStartRecording_catch handleStartRecording
     handleStartRecording_fetched handleStartRecording_parsed
     handleStartRecording_acquired handleTogglePause
     handleEndSession_reset handleEndSession_catch handleEndSession_finally
     stop_audio_stream close_websocket get_session_summary handleEndSession_release
     disconnect_processor handleEndSession handleEndSession_closed
     handleEndSession_fetched handleEndSession_parsed
     modal_open start_button session_controls set_socket_state
     ui refs platform task
     appState context isRecording isPaused transcriptEntries suggestions
     isEndingSession showFeedback sessionSummary isLoadingSession
     sessionIdRef wsRef audioContextRef audioProcessorRef audioStreamRef
     sockets contexts processors streams log].



Ltac crunch H :=
  repeat (model_in H; try discriminate H;
          match type of H with
          | context [match ?x with _ => _ end] =>
              lazymatch x with
              | context [match _ with _ => _ end] => fail
              | _ => destruct x eqn:?
              end
          end);
  model_in H; try discriminate H.



Lemma lookup_alter_Some {A} (f : A -> A) (l : list A) i j y :
  alter f i l !! j = Some y ->
  (i = j /\ exists x, l !! j = Some x /\ y = f x) \/ (i <> j /\ l !! j = Some y).
Proof.
  destruct (decide (i = j)) as [->|Hne].
  - rewrite list_lookup_alter_eq. destruct (l !! j) eqn:E; [|done].
    intros [= <-]. left. eauto.
  - rewrite list_lookup_alter_ne by done. eauto.
Qed.

Ltac list_cases :=
  repeat match goal with
  | H : (_ ++ [_]) !! _ = Some _ |- _ =>
      apply lookup_snoc_Some in H as [[? H] | [? ?]]
  | H : alter _ _ _ !! _ = Some _ |- _ =>
      apply lookup_alter_Some in H as [[? (? & H & ?)] | [? H]]
  | H : <[_ := _]> _ !! _ = Some _ |- _ =>
      apply list_lookup_insert_Some in H as [(? & ? & ?) | [? H]]
  end.



Lemma socket_state_Some (l : list WebSocket) i rs :
  default CLOSED (readyState <$> l !! i) = rs -> rs <> CLOSED ->
  exists s, l !! i = Some s /\ readyState s = rs.
Proof. destruct (l !! i) eqn:E; cbn; intros; [eauto | congruence]. Qed.

Lemma context_state_Some (l : list AudioContextState) i st :
  default closed (l !! i) = st -> st <> closed -> l !! i = Some st.
Proof. destruct (l !! i) eqn:E; cbn; intros; congruence. Qed.

Ltac norm_states :=
  repeat match goal with
  | H : default CLOSED (readyState <$> _ !! _) = CONNECTING |- _ =>
      apply socket_state_Some in H as (? & ? & ?); [|discriminate]
  | H : default CLOSED (readyState <$> _ !! _) = OPEN |- _ =>
      apply socket_state_Some in H as (? & ? & ?); [|discriminate]
  | H : default CLOSED (readyState <$> _ !! _) = CLOSING |- _ =>
      apply socket_state_Some in H as (? & ? & ?); [|discriminate]
  | H : default closed (_ !! _) = running |- _ =>
      apply context_state_Some in H; [|discriminate]
  | H : default closed (_ !! _) = suspended |- _ =>
      apply context_state_Some in H; [|discriminate]
  end.

Ltac spec_some :=
  repeat match goal with
  | H : forall x, Some ?a = Some x -> @?Q x |- _ => specialize (H a eq_refl)
  | H : forall x, None = Some x -> @?Q x |- _ => clear H
  | H : ?a = ?a -> _ |- _ => specialize (H eq_refl)
  | H : ?a = ?b -> _ |- _ =>
      assert (a <> b) by discriminate; clear H
  | H : ?b = true -> _ |- _ => is_var b; destruct b
  | H : ?a <> ?b -> _, HP : ?a <> ?b |- _ => specialize (H HP)
  | H : ?a <> ?b -> _ |- _ =>
      first [ (assert (a <> b) as HH by discriminate; specialize (H HH); clear HH)
            | (assert (a = b) by reflexivity; clear H) ]
  | H : match ?t with _ => _ end |- _ => is_var t; destruct t
  | H : exists _, _ |- _ => destruct H
  | H : _ /\ _ |- _ => destruct H
  | H : is_Some _ |- _ => destruct H
  end.

Ltac learn pf :=
  let T := type of pf in
  lazymatch goal with
  | _ : T |- _ => fail
  | _ => pose proof pf
  end.

Ltac forward_all :=
  repeat match goal with
  | H : forall i c, ?l !! i = Some c -> _ = _, Hl : ?l !! ?j = Some ?d |- _ =>
      learn (H j d Hl)
  end.

Lemma alter_is_Some {A} (f : A -> A) (l : list A) i j :
  is_Some (alter f i l !! j) <-> is_Some (l !! j).
Proof.
  destruct (decide (i = j)) as [->|Hne].
  - rewrite list_lookup_alter_eq. by rewrite fmap_is_Some.
  - by rewrite list_lookup_alter_ne.
Qed.

Ltac discharge :=
  first [ eassumption | reflexivity | discriminate
        | (cbn; congruence)
        | (unfold socket_live;
           repeat match goal with H : readyState _ = _ |- _ => rewrite H end;
           reflexivity) ].

Ltac forward_heap I :=
  repeat match goal with
  | Hl : _ !! ?j = Some ?s |- _ =>
      let P := fresh "P" in
      assert (P := I j s Hl);
      lazymatch type of P with
      | ?C -> ?R =>
          lazymatch goal with
          | _ : R |- _ => fail
          | _ => let HC := fresh in
                 assert (HC : C) by discharge;
                 specialize (P HC); clear HC
          end
      end
  end.

Ltac state_clash :=
  repeat match goal with
  | Hl : ?l !! ?i = Some _, H : context [?l !! ?i] |- _ =>
      rewrite Hl in H; cbn in H
  end;
  repeat match goal with
  | H : socket_live ?s = true |- _ =>
      unfold socket_live in H; destruct (readyState s) eqn:?
  end;
  simplify_eq; try done; try congruence.

Ltac heap_goal Is :=
  let Hl := fresh "Hl" in let Hv := fresh "Hv" in
  intros ? ? Hl Hv; list_cases; simplify_eq; cbn in Hv;
  try discriminate; try done;
  try (pose proof (Is _ _ Hl Hv)); simplify_eq; try done; try congruence;
  state_clash; forward_all; simplify_eq; try done; try congruence;
  forward_heap Is; simplify_eq; try done; try congruence.


Lemma is_recording_true a : is_recording a = true -> a = recording.
Proof. by destruct a. Qed.
Lemma is_recording_false a : is_recording a = false -> a <> recording.
Proof. by destruct a. Qed.

Ltac bool_norm :=
  repeat match goal with
  | H : _ && _ = true |- _ => apply andb_prop in H as [? ?]
  | H : _ || _ = false |- _ => apply orb_false_elim in H as [? ?]
  | H : negb _ = true |- _ => apply negb_true_iff in H
  | H : negb _ = false |- _ => apply negb_false_iff in H
  | H : is_recording _ = true |- _ => apply is_recording_true in H
  | H : is_recording _ = false |- _ => apply is_recording_false in H
  end.

Ltac stream_goal Ist :=
  let Hl := fresh "Hl" in
  intros ? Hl; list_cases; simplify_eq; try discriminate; try done;
  try (pose proof (Ist _ Hl)); simplify_eq; try done; try congruence.

Ltac known_lookups :=
  repeat match goal with
  | Hl : ?l !! ?i = Some _, H : context [?l !! ?i] |- _ =>
      lazymatch type of H with
      | _ !! _ = Some _ => fail
      | forall _, _ => fail
      | _ => rewrite Hl in H; cbn in H
      end
  end.

Ltac saturate := bool_norm; spec_some; simplify_eq; known_lookups; simplify_eq.

Ltac prep H :=
  crunch H; injection H as <-; norm_states;
  saturate; saturate; saturate.


Ltac lookup_solve :=
  repeat first
    [ rewrite list_lookup_alter_eq
    | rewrite list_lookup_alter_ne by (simplify_eq; lia || congruence)
    | rewrite list_lookup_insert_eq by (eapply lookup_lt_Some; eassumption)
    | rewrite list_lookup_insert_ne by (simplify_eq; lia || congruence)
    | rewrite (list_lookup_middle _ []) by reflexivity
    | rewrite lookup_app_l by (eapply lookup_lt_Some; eassumption)
    | rewrite alter_is_Some ];
  cbn; try eassumption; try reflexivity; eauto.

Ltac capture_goal :=
  intros ? ?; simplify_eq; saturate; saturate;
  try (do 3 eexists; repeat split; lookup_solve; fail).

Ltac closure_goal Iclo :=
  let Hl := fresh "Hl" in let Hv := fresh "Hv" in
  intros ? ? ? ? Hl Hv; list_cases; simplify_eq; cbn in Hv; simplify_eq;
  try done; try (eapply Iclo; eassumption).

Ltac plain_goal Is Ic :=
  intros; simplify_eq; forward_heap Is; saturate; saturate;
  repeat split; try done; try congruence;
  intros; list_cases; simplify_eq; forward_all; try done; try congruence;
  try (match goal with
       | |- ?c = closed =>
           destruct c; try reflexivity;
           forward_heap Ic; simplify_eq; try done; try congruence
       end);
  try (eexists; reflexivity).

Ltac fields Is Ic Ip Ist Iclo :=
  constructor; cbn;
  [ heap_goal Is | heap_goal Ic | heap_goal Ip | stream_goal Ist
  | capture_goal | plain_goal Is Ic | plain_goal Is Ic | plain_goal Is Ic
  | plain_goal Is Ic
  | closure_goal Iclo
  | try assumption; try (cbn; rewrite ?length_take; lia) ].



Lemma Inv_step w e w' : Inv w -> step w e = Some w' -> Inv w'.
Proof.
  intros I H. break_world w. break_inv I.
  destruct e; prep H; fields Is Ic Ip Ist Iclo.
Qed.

Lemma exec_app w es1 es2 :
  exec w (es1 ++ es2) = match exec w es1 with Some w' => exec w' es2 | None => None end.
Proof.
  revert w. induction es1 as [|e es1 IH]; intros w; cbn; [done|].
  destruct (step w e); [apply IH | done].
Qed.

Lemma exec_snoc w es e w' :
  exec w (es ++ [e]) = Some w' <->
  exists w1, exec w es = Some w1 /\ step w1 e = Some w'.
Proof.
  rewrite exec_app. destruct (exec w es) as [w1|]; cbn.
  - destruct (step w1 e) eqn:E; split.
    + intros [= <-]. eauto.
    + intros (? & [= <-] & ?). congruence.
    + done.
    + intros (? & [= <-] & ?). congruence.
  - split; [done | intros (? & ? & ?); done].
Qed.

Lemma exec_Inv w es w' : Inv w -> exec w es = Some w' -> Inv w'.
Proof.
  revert w. induction es as [|e es IH]; intros w I; cbn.
  - by intros [= <-].
  - destruct (step w e) eqn:E; [|done]. eauto using Inv_step.
Qed.

Lemma reachable_Inv w : reachable w -> Inv w.
Proof. intros [es H]. eapply exec_Inv; [apply Inv_initial | apply H]. Qed.

Lemma Ordered_initial : Ordered initial.
Proof. constructor; cbn; intros; done. Qed.

Ltac break_ord O := destruct O as [Oshut Oframes Ostop]; cbn in *.

Ltac socket_exists :=
  try match goal with
      | |- exists s, alter _ ?k _ !! ?ws = Some s /\ _ =>
          destruct (decide (k = ws)); simplify_eq
      end;
  rewrite ?list_lookup_alter_eq;
  try (rewrite list_lookup_alter_ne by done);
  try (rewrite lookup_app_l by (eapply lookup_lt_Some; eassumption));
  repeat match goal with
         | H : ?l !! ?i = Some _ |- context [?l !! ?i] => rewrite H
         end;
  cbn in *; simplify_eq; eauto.

Ltac shut_goal Oshut :=
  let Hl := fresh "Hl" in
  intros ? ? ? Hl; list_cases; simplify_eq;
  try (destruct (Oshut _ _ _ Hl) as (? & ? & ?));
  socket_exists.

Ltac frames_goal Oshut Oframes :=
  let Hi := fresh "Hi" in let Hj := fresh "Hj" in
  intros ? ? ? ? ? Hi Hj; list_cases; simplify_eq;
  repeat match goal with H : _ !! _ = Some _ |- _ => learn (lookup_lt_Some _ _ _ H) end;
  repeat match goal with
         | H : context [length (_ ++ _)] |- _ => rewrite length_app in H
         end;
  rewrite ?length_app; cbn in *;
  try lia;
  try (eapply Oframes; eassumption);
  try (match goal with
       | Hi : _ !! _ = Some (sent _ (Json _)) |- _ =>
           destruct (Oshut _ _ _ Hi) as (? & ? & Hshut); simplify_eq;
           unfold socket_live in Hshut;
           repeat match goal with
                  | H : readyState _ = _ |- _ => rewrite H in Hshut
                  end;
           discriminate
       end).

Ltac stop_goal Ostop :=
  let Hl := fresh "Hl" in
  intros ? ? ? Hl; list_cases; simplify_eq; try done; try (eapply Ostop; eassumption).

Lemma Ordered_step w e w' : Ordered w -> step w e = Some w' -> Ordered w'.
Proof.
  intros O H. break_world w. break_ord O.
  destruct e; crunch H; injection H as <-; norm_states.
  all: constructor; cbn; [shut_goal Oshut | frames_goal Oshut Oframes | stop_goal Ostop].
Qed.

Lemma exec_Ordered w es w' : Ordered w -> exec w es = Some w' -> Ordered w'.
Proof.
  revert w. induction es as [|e es IH]; intros w I; cbn.
  - by intros [= <-].
  - destruct (step w e) eqn:E; [|done]. eauto using Ordered_step.
Qed.

Lemma reachable_Ordered w : reachable w -> Ordered w.
Proof. intros [es H]. eapply exec_Ordered; [apply Ordered_initial | apply H]. Qed.

Lemma click_finds_no_task w :
  reachable w ->
  start_button (ui w) = true \/ session_controls (ui w) = true ->
  task w = None.
Proof.
  intros R%reachable_Inv G. break_world w. break_inv R.
  unfold start_button, session_controls, modal_open in G. cbn in G.
  destruct tk as [[]|]; [..|done]; destruct G as [G|G]; destruct app;
    saturate; simplify_eq; try done.
Qed.

Lemma idle_released w :
  Inv w -> appState (ui w) <> recording -> released w.
Proof.
  intros I H. break_world w. break_inv I.
  destruct (Iidle H) as (-> & -> & -> & -> & _).
  repeat split; try done; cbn.
  - intros i s Hl. destruct (socket_live s) eqn:E; [|done].
    by specialize (Is _ _ Hl E).
  - intros i c Hl. destruct c; try done;
      by pose proof (Ic _ _ Hl ltac:(discriminate)).
  - intros i p Hl. destruct (connected p) eqn:E; [|done].
    by specialize (Ip _ _ Hl E).
  - intros i [] Hl; [|done]. by specialize (Ist _ Hl).
Qed.

Lemma binary_frames_app ws l1 l2 :
  binary_frames ws (l1 ++ l2) = binary_frames ws l1 ++ binary_frames ws l2.
Proof.
  induction l1 as [|e l1 IH]; cbn; [done|].
  destruct e as [| | | | |ws' [samples|v]| | | | | | | | | | | |]; try done.
  destruct (ws =? ws')%nat; cbn; by rewrite IH.
Qed.

Lemma last_snoc_toast (l : list Effect) title :
  exists t, last (l ++ [toast title]) = Some (toast t).
Proof. exists title. apply last_snoc. Qed.

Lemma snoc_cases {A} (l : list A) x i y :
  (l ++ [x]) !! i = Some y ->
  (i < length l)%nat /\ l !! i = Some y \/ i = length l /\ x = y.
Proof. apply lookup_snoc_Some. Qed.




Lemma paused_shape w :
  Inv w -> isPaused (ui w) = true ->
  exists processor ctx ws stream,
    audioProcessorRef (refs w) = Some processor /\
    audioContextRef (refs w) = Some ctx /\
    wsRef (refs w) = Some ws /\
    audioStreamRef (refs w) = Some stream /\
    processors (platform w) !! processor
      = Some (mkProcessor ctx true (Some (ws, false))) /\
    contexts (platform w) !! ctx = Some suspended /\
    appState (ui w) = recording /\
    task w = None /\
    showFeedback (ui w) = false /\
    isEndingSession (ui w) = false /\
    isLoadingSession (ui w) = false.
Proof.
  intros I P. destruct (inv_paused _ I P) as [[p Hp] He].
  destruct (inv_capture _ I p Hp) as (ctx & ws & st & ? & ? & ? & ? & Hc & ? & ? & ? & Ht & ?).
  rewrite P in Hc. pose proof (inv_task _ I) as Hl. rewrite Ht in Hl.
  exists p, ctx, ws, st. repeat split; assumption.
Qed.


Lemma live_shape w :
  Inv w -> session_controls (ui w) = true ->
  exists processor ctx ws stream,
    audioProcessorRef (refs w) = Some processor /\
    audioContextRef (refs w) = Some ctx /\
    wsRef (refs w) = Some ws /\
    audioStreamRef (refs w) = Some stream /\
    processors (platform w) !! processor
      = Some (mkProcessor ctx true (Some (ws, false))) /\
    contexts (platform w) !! ctx
      = Some (if isPaused (ui w) then suspended else running) /\
    is_Some (sockets (platform w) !! ws) /\
    streams (platform w) !! stream = Some true /\
    task w = None.
Proof.
  intros I G. unfold session_controls, modal_open in G. bool_norm.
  destruct (inv_live _ I) as [p Hp]; [done..|].
  destruct (inv_capture _ I p Hp) as (ctx & ws & st & ? & ? & ? & ? & ? & ? & ? & ? & ? & ?).
  exists p, ctx, ws, st. repeat split; assumption.
Qed.

Lemma callback_ignores_current_flag w flag processor inputData :
  step (with_ui (set_isPaused flag) w) (AudioProcess processor inputData)
  = with_ui (set_isPaused flag) <$> step w (AudioProcess processor inputData).
Proof.
  break_world w. model_goal.
  destruct (procs !! processor) as [[ctx [] [[ws b]|]]|]; try reflexivity.
  destruct (default closed (ctxs !! ctx)); try reflexivity.
  destruct (default CLOSED (readyState <$> socks !! ws)) eqn:E; cbn;
    try reflexivity.
  destruct b; cbn; rewrite ?E; reflexivity.
Qed.

(** C10: the [isPaused] that the capture callback tests is the one its
    closure captured, and that one is false for every processor ever
    installed; the callback behaves the same whatever the current flag
    is, and whenever it runs with its socket open it sends the frame.
    While paused it is the suspended audio context that keeps the
    callback from running, and it is the pause click that suspends it. *)
Theorem capture_gate_reads_captured_flag w :
  reachable w ->
  (forall i p ws b, processors (platform w) !! i = Some p ->
     onaudioprocess p = Some (ws, b) -> b = false) /\
  (forall flag processor inputData,
     step (with_ui (set_isPaused flag) w) (AudioProcess processor inputData)
     = with_ui (set_isPaused flag) <$> step w (AudioProcess processor inputData)) /\
  (forall processor inputData w' p ws b,
     step w (AudioProcess processor inputData) = Some w' ->
     processors (platform w) !! processor = Some p ->
     onaudioprocess p = Some (ws, b) ->
     socket_state w ws = OPEN ->
     log (platform w') = log (platform w) ++ [sent ws (Binary (pcm16 inputData))]) /\
  (isPaused (ui w) = true ->
     (forall processor inputData,
        step w (AudioProcess processor inputData) = None) /\
     exists ctx, audioContextRef (refs w) = Some ctx /\
                 contexts (platform w) !! ctx = Some suspended) /\
  (isPaused (ui w) = false -> session_controls (ui w) = true ->
     exists w' ctx,
       step w ClickTogglePause = Some w' /\
       isPaused (ui w') = true /\
       contexts (platform w') !! ctx = Some suspended /\
       log (platform w') = log (platform w) ++ [audioContext_suspend ctx]).
Proof.
  intros R%reachable_Inv.
  split; [|split; [|split; [|split]]].
  - apply (inv_closures _ R).
  - apply callback_ignores_current_flag.
  - intros processor inputData w' p ws b H Hp Hh Hopen.
    pose proof (inv_closures _ R _ _ _ _ Hp Hh) as ->.
    clear R. break_world w. cbn in *. model_in H. rewrite Hp in H.
    destruct p as [ctx c h]. cbn in Hh. subst h.
    destruct c; [|done]. destruct (default closed (ctxs !! ctx)); try done.
    unfold socket_state in Hopen. cbn in Hopen. rewrite Hopen in H. cbn in H.
    rewrite Hopen in H. by injection H as <-.
  - intros P.
    destruct (paused_shape _ R P)
      as (p & ctx & ws & st & Hp & Hc & Hw & Hs & Hproc & Hctx & _).
    split; [|eauto].
    intros processor inputData.
    destruct (step w (AudioProcess processor inputData)) as [w'|] eqn:H; [|done].
    exfalso.
    pose proof (inv_processors _ R) as Ip.
    clear R. break_world w. cbn in *. model_in H.
    destruct (procs !! processor) as [[ctx' [] [[ws' b]|]]|] eqn:E; try done.
    specialize (Ip _ _ E eq_refl). simplify_eq. by rewrite Hctx in H.
  - intros P G.
    destruct (live_shape _ R G)
      as (p & ctx & ws & st & Hp & Hc & Hw & Hs & Hproc & Hctx & _ & _ & Ht).
    clear R. break_world w. cbn in *. subst. model_in G.
    eexists _, ctx. split.
    + model_goal. rewrite G. cbn. rewrite Hctx. cbn. rewrite Hctx. reflexivity.
    + cbn. repeat split.
      apply list_lookup_insert_eq. by eapply lookup_lt_Some.
Qed.

Lemma strict_eq_string_inj v a b :
  strict_eq_string v a = true -> strict_eq_string v b = true -> a = b.
Proof.
  destruct v; cbn; try done.
  intros ->%String.eqb_eq ->%String.eqb_eq. done.
Qed.

Lemma suggestion_not_transcript v :
  strict_eq_string v "suggestion" = true -> strict_eq_string v "transcript" = false.
Proof.
  intros H. destruct (strict_eq_string v "transcript") eqn:E; [|done].
  by pose proof (strict_eq_string_inj _ _ _ H E).
Qed.

Ltac tr_finish Is :=
  forward_heap Is; saturate;
  repeat match goal with
  | H : strict_eq_string _ "suggestion" = true |- _ =>
      apply suggestion_not_transcript in H
  | H : strict_eq_string ?v ?s = _ |- context [strict_eq_string ?v ?s] =>
      rewrite H
  | H : context [is_recording ?a] |- _ => is_var a; destruct a
  | |- context [is_recording ?a] => is_var a; destruct a
  end;
  saturate;
  unfold add_transcript; rewrite ?length_app; cbn in *;
  try done; try congruence; try lia.

Lemma transcript_step w e w' n :
  Inv w -> step w e = Some w' ->
  length (transcriptEntries (ui w))
    = (if is_recording (appState (ui w)) then n else 0)%nat ->
  length (transcriptEntries (ui w'))
    = (if is_recording (appState (ui w')) then count_transcript n e else 0)%nat.
Proof.
  intros I H L. break_world w. break_inv I.
  destruct e; prep H; cbn in *; rewrite ?length_app; cbn; try done; try lia.
  all: tr_finish Is.
Qed.

Lemma transcript_count events w :
  exec initial events = Some w ->
  length (transcriptEntries (ui w))
    = (if is_recording (appState (ui w))
       then transcripts_since_start events else 0)%nat.
Proof.
  revert w. induction events as [|e events IH] using rev_ind; intros w H.
  - by injection H as <-.
  - apply exec_snoc in H as (w1 & H1 & H).
    unfold transcripts_since_start. rewrite fold_left_app. cbn.
    eapply transcript_step; [|exact H|by apply IH].
    apply reachable_Inv. by exists events.
Qed.

Lemma transcript_append_only w e w' :
  step w e = Some w' ->
  transcriptEntries (ui w') = transcriptEntries (ui w) \/
  (exists ws data speaker text timestamp,
     e = SocketMessage ws data /\
     message_type_is "transcript" data = true /\
     transcriptEntries (ui w')
       = transcriptEntries (ui w) ++ [TranscriptEntry.Build speaker text timestamp]) \/
  (ends_session e = true /\ appState (ui w') = contextMenu /\
   transcriptEntries (ui w') = []).
Proof.
  intros H. break_world w.
  destruct e; crunch H; injection H as <-; cbn; auto.
  all: right; left; do 5 eexists; repeat split; cbn;
    by repeat match goal with
       | H : strict_eq_string ?v ?s = _ |- context [strict_eq_string ?v ?s] =>
           rewrite H
       end.
Qed.





(** ** The PCM encoder *)


Lemma ToInt16_exact q :
  -32768 <= JS.truncate q <= 32767 -> JS.ToInt16 (JS.Finite q) = JS.truncate q.
Proof.
  intros H. unfold JS.ToInt16.
  destruct (Z.le_gt_cases 0 (JS.truncate q)).
  - rewrite Z.mod_small by lia.
    destruct (Z.leb_spec 32768 (JS.truncate q)); lia.
  - replace (JS.truncate q mod 65536) with (JS.truncate q + 65536).
    + destruct (Z.leb_spec 32768 (JS.truncate q + 65536)); lia.
    + apply Z.mod_unique with (q := -1); lia.
Qed.

Lemma quot_bounds n d lo hi :
  0 < d -> lo * d <= n <= hi * d -> lo <= Z.quot n d <= hi.
Proof.
  intros Hd [Hlo Hhi]. split.
  - rewrite <- (Z.quot_mul lo d) by lia. apply Z.quot_le_mono; lia.
  - rewrite <- (Z.quot_mul hi d) by lia. apply Z.quot_le_mono; lia.
Qed.

Lemma clamp_finite n d :
  clamp (JS.Finite (n # d)) =
  if n <? Z.pos d
  then (if - Z.pos d <? n then JS.Finite (n # d) else JS.of_Z (-1))
  else JS.of_Z 1.
Proof.
  unfold clamp, JS.Math_min, JS.Math_max, JS.of_Z, JS.lt, JS.Qltb, inject_Z.
  cbn [Qnum Qden].
  rewrite !Z.mul_1_r, !Z.mul_1_l.
  destruct (Z.ltb_spec n (Z.pos d)).
  - cbn [Qnum Qden]. rewrite !Z.mul_1_r.
    replace (-1 * Z.pos d) with (- Z.pos d) by lia.
    destruct (Z.ltb_spec (- Z.pos d) n); reflexivity.
  - reflexivity.
Qed.

Lemma clamp_range x s : clamp x = JS.Finite s -> (-1 <= s <= 1)%Q.
Proof.
  destruct x as [|[|]|[n d]]; try discriminate.
  - intros [= <-]. split; discriminate.
  - intros [= <-]. split; discriminate.
  - rewrite clamp_finite. unfold Qle.
    destruct (Z.ltb_spec n (Z.pos d)); [destruct (Z.ltb_spec (- Z.pos d) n)|];
      intros [= <-]; cbn; lia.
Qed.

Lemma pcm16_sample_finite x s :
  clamp x = JS.Finite s -> pcm16_sample x = JS.truncate (scale s).
Proof.
  intros E. pose proof (clamp_range _ _ E) as [Hlo Hhi].
  unfold pcm16_sample. fold (clamp x). rewrite E.
  unfold scale, JS.lt, JS.of_Z, JS.mul.
  destruct s as [n d]. unfold Qle in Hlo, Hhi. cbn in Hlo, Hhi.
  unfold JS.Qltb, inject_Z. cbn [Qnum Qden].
  rewrite Z.mul_1_r, Z.mul_0_l.
  destruct (Z.ltb_spec n 0); apply ToInt16_exact;
    unfold JS.truncate, Qmult; cbn [Qnum Qden]; rewrite Pos.mul_1_r.
  - pose proof (quot_bounds (n * 32768) (Z.pos d) (-32768) 0). lia.
  - pose proof (quot_bounds (n * 32767) (Z.pos d) 0 32767). lia.
Qed.


Lemma pcm16_sample_high q : (1 <= q)%Q -> pcm16_sample (JS.Finite q) = 32767.
Proof.
  destruct q as [n d]. unfold Qle. cbn. intros H.
  unfold pcm16_sample. fold (clamp (JS.Finite (n # d))). rewrite clamp_finite.
  destruct (Z.ltb_spec n (Z.pos d)); [lia | reflexivity].
Qed.

Lemma pcm16_sample_low q : (q <= -1)%Q -> pcm16_sample (JS.Finite q) = -32768.
Proof.
  destruct q as [n d]. unfold Qle. cbn. intros H.
  unfold pcm16_sample. fold (clamp (JS.Finite (n # d))). rewrite clamp_finite.
  destruct (Z.ltb_spec n (Z.pos d)); [|lia].
  destruct (Z.ltb_spec (- Z.pos d) n); [lia | reflexivity].
Qed.




Lemma reachable_world_after events :
  is_Some (exec initial events) -> reachable (world_after events).
Proof.
  intros [w H]. exists events. unfold world_after. by rewrite H.
Qed.






(** C8: the transcript sink is an append-only log.  While the
    recording screen is up its length is the number of messages
    classified as transcript entries since the session started (and it is
    empty on the other screens); a turn of the event loop leaves it as it
    is, appends one entry for such a message, or empties it when
    [handleEndSession] reaches its last statements. *)
Theorem transcript_sink events w :
  exec initial events = Some w ->
  length (transcriptEntries (ui w))
    = (if is_recording (appState (ui w))
       then transcripts_since_start events else 0)%nat /\
  forall e w', step w e = Some w' ->
    transcriptEntries (ui w') = transcriptEntries (ui w) \/
    (exists ws data speaker text timestamp,
       e = SocketMessage ws data /\
       message_type_is "transcript" data = true /\
       transcriptEntries (ui w')
         = transcriptEntries (ui w) ++ [TranscriptEntry.Build speaker text timestamp]) \/
    (ends_session e = true /\ appState (ui w') = contextMenu /\
     transcriptEntries (ui w') = []).
Proof.
  intros H. split.
  - by apply transcript_count.
  - intros e w'. apply transcript_append_only.
Qed.

Lemma transcript_sink_witness :
  length (transcriptEntries
            (ui (world_after (recording_events ++ [SocketMessage 0 hi_message]))))
  = 1%nat.
Proof.
  destruct (transcript_sink (recording_events ++ [SocketMessage 0 hi_message])
              (world_after (recording_events ++ [SocketMessage 0 hi_message])))
    as [H _].
  - vm_compute. reflexivity.
  - rewrite H. reflexivity.
Defined.

Lemma capture_gate_witness :
  step paused_world (AudioProcess 0 [JS.of_Z 1]) = None /\
  exists ctx, audioContextRef (refs paused_world) = Some ctx /\
              contexts (platform paused_world) !! ctx = Some suspended.
Proof.
  assert (R : reachable paused_world).
  { apply reachable_world_after. vm_compute. eauto. }
  destruct (capture_gate_reads_captured_flag paused_world R)
    as (_ & _ & _ & H & _).
  destruct (H eq_refl) as [H1 H2]. split; [apply H1 | exact H2].
Defined.

(** C6, at the failing input: on a message whose data is not JSON,
    [ws.onmessage] throws the [SyntaxError] of [JSON.parse]; it has
    logged nothing and changed nothing, and the exception leaves the
    handler uncaught. *)
Theorem onmessage_not_json_throws w text :
  ws_onmessage (NotJSON text) w = (Thrown SyntaxError, w) /\
  run (ws_onmessage (NotJSON text)) w
    = with_platform (add_log (uncaught SyntaxError)) w.
Proof. split; reflexivity. Qed.

(** C7, at the failing input: when the summary response is not ok,
    [handleEndSession] finishes the teardown and returns to the context
    menu, but it logs nothing and shows no toast. *)
Theorem summary_not_ok_is_silent w :
  let w' := run (handleEndSession_fetched (FetchResponse false)) w in
  log (platform w') = log (platform w) /\
  appState (ui w') = contextMenu /\
  isEndingSession (ui w') = false /\
  transcriptEntries (ui w') = [] /\
  suggestions (ui w') = [] /\
  sessionIdRef (refs w') = None /\
  sessionSummary (ui w') = sessionSummary (ui w) /\
  showFeedback (ui w') = showFeedback (ui w).
Proof. break_world w. cbn. repeat split. Qed.

(** C9, amended: the creation request always carries [userName] as
    typed; empty event details and goals are replaced by "General
    conversation" and "Have a great conversation"; participants and tone
    are sent as they are, an empty one as the empty string. *)
Theorem session_request_defaults c :
  Body.user_name (session_request c) = userName c /\
  (eventDetails c = EmptyString ->
     Body.context (session_request c) = "General conversation") /\
  (eventDetails c <> EmptyString ->
     Body.context (session_request c) = eventDetails c) /\
  (goals c = EmptyString ->
     Body.goal (session_request c) = "Have a great conversation") /\
  (goals c <> EmptyString -> Body.goal (session_request c) = goals c) /\
  Body.participants (session_request c) = participants c /\
  Body.tone (session_request c) = tone c /\
  forall w, context (ui w) = c -> start_button (ui w) = true -> task w = None ->
    exists w', step w ClickStart = Some w' /\
      log (platform w') = log (platform w) ++ [fetch_session (session_request c)].
Proof.
  destruct c as [u e g p t]. cbn.
  repeat split.
  - by intros ->.
  - by destruct e.
  - by intros ->.
  - by destruct g.
  - by destruct p.
  - by destruct t.
  - intros w Hc Hs Ht. break_world w. cbn in *. subst.
    eexists. split.
    + model_goal. model_in Hs. rewrite Hs. reflexivity.
    + reflexivity.
Qed.

Lemma session_request_defaults_witness :
  Body.context (session_request ana) = "General conversation" /\
  Body.goal (session_request ana) = "Have a great conversation" /\
  exists w',
    step (world_after [Workflow contextMenu ana]) ClickStart = Some w' /\
    log (platform w')
    = log (platform (world_after [Workflow contextMenu ana]))
      ++ [fetch_session (session_request ana)].
Proof.
  destruct (session_request_defaults ana) as (_ & Hc & _ & Hg & _ & _ & _ & H).
  split; [exact (Hc eq_refl)|]. split; [exact (Hg eq_refl)|].
  apply H; reflexivity.
Defined.

Lemma empty_participants_get_no_default :
  ~ (forall c, participants c = EmptyString ->
       Body.participants (session_request c) <> EmptyString).
Proof. intros H. by apply (H ana). Qed.

(** ** Further properties of the handlers *)



Lemma filter_snoc_false {A} (P : A -> bool) (l : list A) x :
  P x = false -> List.filter P (l ++ [x]) = List.filter P l.
Proof. intros H. rewrite List.filter_app. cbn. rewrite H. apply app_nil_r. Qed.

Ltac no_new_fetch :=
  cbn; repeat (rewrite filter_snoc_false by reflexivity); reflexivity.

(** X2 (handleEndSession, summary request not answered with ok): when
    the pending summary request is rejected or answered with a status
    that is not ok, the handler still ends on the context menu with
    [isEndingSession] false, every resource released, both sinks empty
    and the session id forgotten; no second request is made, and a
    rejected request ends with the toast [Error]. *)
Theorem summary_failure_completes_teardown w r :
  reachable w ->
  task w = Some EndFetching ->
  r <> FetchResponse true ->
  exists w',
    step w (FinishFetchSettled r) = Some w' /\
    appState (ui w') = contextMenu /\
    isEndingSession (ui w') = false /\
    task w' = None /\
    released w' /\
    transcriptEntries (ui w') = [] /\ suggestions (ui w') = [] /\
    sessionIdRef (refs w') = None /\
    List.filter is_fetch_finish (log (platform w'))
      = List.filter is_fetch_finish (log (platform w)) /\
    (forall e, r = FetchRejected e ->
       last (log (platform w')) = Some (toast "Error")).
Proof.
  intros R T Hr.
  destruct (step w (FinishFetchSettled r)) as [w'|] eqn:H.
  2:{ break_world w. cbn in T. subst. by destruct r as [|[]]. }
  pose proof (reachable_Inv _ R) as I.
  pose proof (Inv_step _ _ _ I H) as I'.
  exists w'. split; [done|].
  assert (A : appState (ui w') = contextMenu /\ isEndingSession (ui w') = false /\
              task w' = None /\ transcriptEntries (ui w') = [] /\
              suggestions (ui w') = [] /\ sessionIdRef (refs w') = None /\
              List.filter is_fetch_finish (log (platform w'))
              = List.filter is_fetch_finish (log (platform w)) /\
              (forall e, r = FetchRejected e ->
                 last (log (platform w')) = Some (toast "Error"))).
  { clear I I' R. break_world w. cbn in T. subst.
    destruct r as [e|[]]; [|done|]; model_in H; injection H as <-;
      cbn; repeat split; try no_new_fetch; try done.
    intros e' _. apply last_snoc. }
  destruct A as (A1 & A2 & A3 & A4 & A5 & A6 & A7 & A8).
  repeat split; try done.
  1-8: apply idle_released; [done | rewrite A1; discriminate].
Qed.

Lemma summary_failure_completes_teardown_witness :
  exists w',
    step fetching_world (FinishFetchSettled (FetchResponse false)) = Some w' /\
    appState (ui w') = contextMenu /\
    isEndingSession (ui w') = false /\
    task w' = None /\
    released w' /\
    transcriptEntries (ui w') = [] /\ suggestions (ui w') = [] /\
    sessionIdRef (refs w') = None /\
    List.filter is_fetch_finish (log (platform w'))
      = List.filter is_fetch_finish (log (platform fetching_world)) /\
    (forall e, FetchResponse false = FetchRejected e ->
       last (log (platform w')) = Some (toast "Error")).
Proof.
  apply summary_failure_completes_teardown.
  - apply reachable_world_after. vm_compute. eauto.
  - reflexivity.
  - discriminate.
Defined.

(** X3 (handleEndSession, summary body): a summary body that parses is
    stored and the feedback dialog opened without any toast; a body that
    does not parse leaves summary and dialog alone and ends with the
    toast [Error]; the teardown completes either way. *)
Theorem summary_parsed_completes_teardown w r :
  reachable w ->
  task w = Some EndParsing ->
  exists w',
    step w (FinishJsonSettled r) = Some w' /\
    appState (ui w') = contextMenu /\
    isEndingSession (ui w') = false /\
    task w' = None /\
    released w' /\
    transcriptEntries (ui w') = [] /\ suggestions (ui w') = [] /\
    sessionIdRef (refs w') = None /\
    match r with
    | SummaryData summary =>
        sessionSummary (ui w') = Some summary /\ showFeedback (ui w') = true /\
        List.filter is_toast (log (platform w'))
          = List.filter is_toast (log (platform w))
    | SummaryRejected _ =>
        sessionSummary (ui w') = sessionSummary (ui w) /\
        showFeedback (ui w') = showFeedback (ui w) /\
        last (log (platform w')) = Some (toast "Error")
    end.
Proof.
  intros R T.
  destruct (step w (FinishJsonSettled r)) as [w'|] eqn:H.
  2:{ break_world w. cbn in T. subst. by destruct r. }
  pose proof (reachable_Inv _ R) as I.
  pose proof (Inv_step _ _ _ I H) as I'.
  exists w'. split; [done|].
  assert (A : appState (ui w') = contextMenu /\ isEndingSession (ui w') = false /\
              task w' = None /\ transcriptEntries (ui w') = [] /\
              suggestions (ui w') = [] /\ sessionIdRef (refs w') = None /\
              match r with
              | SummaryData summary =>
                  sessionSummary (ui w') = Some summary /\
                  showFeedback (ui w') = true /\
                  List.filter is_toast (log (platform w'))
                  = List.filter is_toast (log (platform w))
              | SummaryRejected _ =>
                  sessionSummary (ui w') = sessionSummary (ui w) /\
                  showFeedback (ui w') = showFeedback (ui w) /\
                  last (log (platform w')) = Some (toast "Error")
              end).
  { clear I I' R. break_world w. cbn in T. subst.
    destruct r; model_in H; injection H as <-;
      cbn; repeat split; try no_new_fetch; try done.
    apply last_snoc. }
  destruct A as (A1 & A2 & A3 & A4 & A5 & A6 & A7).
  split; [done|]. split; [done|]. split; [done|].
  split; [apply idle_released; [done | rewrite A1; discriminate]|].
  by repeat split.
Qed.

Lemma summary_parsed_completes_teardown_witness :
  exists w',
    step parsing_world (FinishJsonSettled (SummaryData sample_summary)) = Some w' /\
    appState (ui w') = contextMenu /\
    isEndingSession (ui w') = false /\
    task w' = None /\
    released w' /\
    transcriptEntries (ui w') = [] /\ suggestions (ui w') = [] /\
    sessionIdRef (refs w') = None /\
    sessionSummary (ui w') = Some sample_summary /\ showFeedback (ui w') = true /\
    List.filter is_toast (log (platform w'))
      = List.filter is_toast (log (platform parsing_world)).
Proof.
  apply (summary_parsed_completes_teardown parsing_world (SummaryData sample_summary)).
  - apply reachable_world_after. vm_compute. eauto.
  - reflexivity.
Defined.

Lemma sent_frames_app l1 l2 :
  sent_frames (l1 ++ l2) = sent_frames l1 ++ sent_frames l2.
Proof.
  induction l1 as [|e l1 IH]; cbn; [done|].
  destruct e; cbn; by rewrite ?IH.
Qed.

Ltac no_new_frame :=
  cbn; rewrite ?sent_frames_app; cbn; rewrite ?app_nil_r; reflexivity.

(** X4 (handleEndSession on a connecting socket): when End is clicked
    while the socket is still connecting, [ws.send] throws outside the
    try block: the exception is uncaught, no frame and no summary
    request leave, the socket stays connecting and referenced, the
    screen stays on recording with [isEndingSession] true, and no button
    can be clicked any more. *)
Theorem end_while_connecting_sticks w ws :
  reachable w ->
  session_controls (ui w) = true ->
  wsRef (refs w) = Some ws ->
  socket_state w ws = CONNECTING ->
  exists w',
    exec w [ClickEnd; ContextCloseSettled] = Some w' /\
    last (log (platform w')) = Some (uncaught InvalidStateError) /\
    sent_frames (log (platform w')) = sent_frames (log (platform w)) /\
    List.filter is_fetch_finish (log (platform w'))
      = List.filter is_fetch_finish (log (platform w)) /\
    appState (ui w') = recording /\
    isEndingSession (ui w') = true /\
    wsRef (refs w') = Some ws /\
    socket_state w' ws = CONNECTING /\
    task w' = None /\
    step w' ClickEnd = None /\
    step w' ClickTogglePause = None /\
    step w' ClickStart = None.
Proof.
  intros R%reachable_Inv G Hws Hc.
  destruct (live_shape _ R G)
    as (p & ctx & ws' & st & Hp & Hctxr & Hw & Hs & Hproc & Hctx & _ & Hst & Ht).
  clear R. break_world w. cbn in *. simplify_eq. model_in G.
  unfold socket_state in Hc. cbn in Hc.
  eexists. split.
  { cbn. model_goal. rewrite G. cbn. rewrite Hctx.
    destruct pau; cbn; model_goal; cbn; rewrite Hc; cbn; reflexivity. }
  bool_norm. subst.
  repeat split; try reflexivity; try no_new_frame; try no_new_fetch.
  - apply last_snoc.
  - unfold socket_state. cbn. exact Hc.
Qed.

Lemma end_while_connecting_sticks_witness :
  exists w',
    exec connecting_world [ClickEnd; ContextCloseSettled] = Some w' /\
    last (log (platform w')) = Some (uncaught InvalidStateError) /\
    sent_frames (log (platform w')) = sent_frames (log (platform connecting_world)) /\
    List.filter is_fetch_finish (log (platform w'))
      = List.filter is_fetch_finish (log (platform connecting_world)) /\
    appState (ui w') = recording /\
    isEndingSession (ui w') = true /\
    wsRef (refs w') = Some 0%nat /\
    socket_state w' 0 = CONNECTING /\
    task w' = None /\
    step w' ClickEnd = None /\
    step w' ClickTogglePause = None /\
    step w' ClickStart = None.
Proof.
  apply (end_while_connecting_sticks connecting_world 0).
  - apply reachable_world_after. vm_compute. eauto.
  - reflexivity.
  - reflexivity.
  - reflexivity.
Defined.

(** X5 (ws.onerror, ws.onclose): a socket failure logs the error,
    raises the toast [Connection Error], logs the close, and changes
    nothing else: screen, refs, audio context, processor and stream are
    as before, and every later capture callback bound to that socket
    leaves the world unchanged. *)
Theorem channel_failure_keeps_session w ws w' :
  step w (SocketFailed ws) = Some w' ->
  ui w' = ui w /\ refs w' = refs w /\ task w' = task w /\
  contexts (platform w') = contexts (platform w) /\
  processors (platform w') = processors (platform w) /\
  streams (platform w') = streams (platform w) /\
  socket_state w' ws = CLOSED /\
  log (platform w')
    = log (platform w) ++
      [console_error "WebSocket error:"; toast "Connection Error";
       console_log "WebSocket closed"] /\
  forall processor inputData w'',
    step w' (AudioProcess processor inputData) = Some w'' ->
    forall p ws' b, processors (platform w') !! processor = Some p ->
      onaudioprocess p = Some (ws', b) -> ws' = ws -> w'' = w'.
Proof.
  intros H. break_world w. crunch H; injection H as <-; cbn.
  all: repeat split; try (rewrite <- !app_assoc; reflexivity).
  all: try (unfold socket_state; cbn; rewrite list_lookup_alter_eq;
            repeat match goal with E : _ !! _ = Some _ |- _ => rewrite E end;
            reflexivity).
  all: intros processor inputData w'' H p ws' b Hp Hh ->;
    model_in H; rewrite Hp in H; destruct p as [c [] h]; cbn in Hh; subst h;
    try done;
    destruct (default closed (ctxs !! c)); try done;
    rewrite list_lookup_alter_eq in H;
    repeat match goal with E : _ !! _ = Some _ |- _ => rewrite E in H end;
    cbn in H; by injection H as <-.
Qed.

Lemma channel_failure_keeps_session_witness :
  ui failed_world = ui recording_world /\
  refs failed_world = refs recording_world /\
  task failed_world = task recording_world /\
  socket_state failed_world 0 = CLOSED /\
  log (platform failed_world)
    = log (platform recording_world) ++
      [console_error "WebSocket error:"; toast "Connection Error";
       console_log "WebSocket closed"].
Proof.
  assert (H : step recording_world (SocketFailed 0) = Some failed_world).
  { vm_compute. reflexivity. }
  destruct (channel_failure_keeps_session recording_world 0 failed_world H)
    as (H1 & H2 & H3 & _ & _ & _ & H7 & H8 & _).
  split; [exact H1|]. split; [exact H2|]. split; [exact H3|].
  split; [exact H7 | exact H8].
Defined.



(** X7 (handleStartRecording, catch block): a creation request that
    fails is logged and reported with the generic toast [Microphone
    Error]; a rejected microphone request is reported by the name of the
    error (access blocked, no microphone found, or generic); in each
    case the loading dialog is taken down, the screen and the refs are
    as they were at the failing await. *)
Theorem start_failure_toasts w w' :
  (forall b r, task w = Some (StartFetching b) ->
     step w (SessionFetchSettled r) = Some w' ->
     r = FetchResponse false \/ (exists e, r = FetchRejected e /\ name e = "TypeError") ->
     log (platform w')
       = log (platform w) ++
         [console_error "Microphone permission error:"; toast "Microphone Error"] /\
     isLoadingSession (ui w') = false /\ task w' = None /\ refs w' = refs w) /\
  (forall b session_id e, task w = Some (StartAcquiring b session_id) ->
     step w (GetUserMediaSettled (MediaRejected e)) = Some w' ->
     isLoadingSession (ui w') = false /\ task w' = None /\ refs w' = refs w /\
     appState (ui w') = appState (ui w) /\
     (name e = "NotAllowedError" \/ name e = "PermissionDeniedError" ->
        last (log (platform w')) = Some (toast "Microphone Access Blocked")) /\
     (name e = "NotFoundError" ->
        last (log (platform w')) = Some (toast "No Microphone Found")) /\
     (name e <> "NotAllowedError" -> name e <> "PermissionDeniedError" ->
      name e <> "NotFoundError" ->
        last (log (platform w')) = Some (toast "Microphone Error"))).
Proof.
  split.
  - intros b r T H Hr. break_world w. cbn in T. subst.
    destruct Hr as [-> | (e & -> & He)]; model_in H.
    + injection H as <-. cbn. by rewrite <- app_assoc.
    + rewrite He in H. cbn in H. injection H as <-. cbn. by rewrite <- app_assoc.
  - intros b session_id e T H. break_world w. cbn in T. subst. model_in H.
    destruct (String.eqb_spec (name e) "NotAllowedError") as [E1|E1];
      destruct (String.eqb_spec (name e) "PermissionDeniedError") as [E2|E2];
      destruct (String.eqb_spec (name e) "NotFoundError") as [E3|E3];
      cbn in H; injection H as <-; cbn; repeat split;
      try (intros; apply last_snoc); try congruence; try (intros []; congruence).
Qed.

Lemma start_failure_toasts_witness :
  exists w',
    step acquiring_world (GetUserMediaSettled (MediaRejected NotAllowedError))
      = Some w' /\
    last (log (platform w')) = Some (toast "Microphone Access Blocked") /\
    refs w' = refs acquiring_world.
Proof.
  eexists. split; [reflexivity|].
  match goal with |- last (log (platform ?w')) = _ /\ _ =>
    destruct (start_failure_toasts acquiring_world w') as [_ H]
  end.
  destruct (H false "abc"%string NotAllowedError eq_refl eq_refl)
    as (_ & _ & Hr & _ & Ht & _).
  split; [apply Ht; by left | exact Hr].
Defined.

(** X8 (ws.onmessage): a parsed message that is not the null value
    and whose type is none of suggestion, transcript and audio is logged
    and otherwise ignored; the parsed value null is logged and then
    throws a TypeError at [message.type]. *)
Theorem onmessage_unclassified w v :
  (match v with
   | JObject fields =>
       strict_eq_string (assoc "type" fields) "suggestion" = false /\
       strict_eq_string (assoc "type" fields) "transcript" = false /\
       strict_eq_string (assoc "type" fields) "audio" = false
   | JNull | JUndefined => False
   | _ => True
   end ->
   ws_onmessage (JSONText v) w
   = (Normal tt, with_platform (add_log (console_log "WebSocket message:")) w)) /\
  ws_onmessage (JSONText JNull) w
  = (Thrown TypeError, with_platform (add_log (console_log "WebSocket message:")) w).
Proof.
  split; [|reflexivity].
  destruct v; try done; try reflexivity.
  intros (H1 & H2 & H3). model_goal. cbn. by rewrite H1, H2, H3.
Qed.

Lemma onmessage_unclassified_witness :
  ws_onmessage (JSONText (JObject [("type", JString "ping")])) recording_world
  = (Normal tt,
     with_platform (add_log (console_log "WebSocket message:")) recording_world).
Proof.
  destruct (onmessage_unclassified recording_world
              (JObject [("type", JString "ping")])) as [H _].
  apply H. repeat split.
Defined.

(** X9 (ws.onmessage, suggestion branch): a suggestion message puts
    its text and timestamp at the head of the suggestion list, cut to
    three entries, leaves the transcript alone and sends nothing. *)
Theorem suggestion_message_is_prepended w ws fields w' :
  reachable w ->
  strict_eq_string (assoc "type" fields) "suggestion" = true ->
  step w (SocketMessage ws (JSONText (JObject fields))) = Some w' ->
  suggestions (ui w')
    = add_suggestion (assoc "text" fields) (assoc "timestamp" fields)
        (suggestions (ui w)) /\
  (length (suggestions (ui w')) <= 3)%nat /\
  transcriptEntries (ui w') = transcriptEntries (ui w) /\
  sent_frames (log (platform w')) = sent_frames (log (platform w)).
Proof.
  intros R Ht H.
  pose proof (inv_suggestions _ (Inv_step _ _ _ (reachable_Inv _ R) H)) as Hl.
  split; [|split; [exact Hl|]];
    clear R Hl; break_world w; model_in H;
    destruct (socks !! ws) as [[? []]|]; try done;
    model_in H; rewrite Ht in H; injection H as <-; cbn; try done.
  split; [done | no_new_frame].
Qed.

Lemma suggestion_message_is_prepended_witness :
  suggestions (ui (world_after (recording_events ++
                                [SocketMessage 0 (JSONText (JObject ask_more))])))
  = [Suggestion.Build (JString "ask more") "tip" "high" (JString "t2")].
Proof.
  destruct (suggestion_message_is_prepended recording_world 0 ask_more
              (world_after (recording_events ++
                            [SocketMessage 0 (JSONText (JObject ask_more))])))
    as [H _].
  - apply reachable_world_after. vm_compute. eauto.
  - reflexivity.
  - vm_compute. reflexivity.
  - rewrite H. reflexivity.
Defined.

Ltac one_stop_goal Oshut O1 :=
  let Hi := fresh "Hi" in let Hj := fresh "Hj" in
  intros ? ? ? ? ? Hi Hj; list_cases; simplify_eq;
  repeat match goal with
         | H : _ !! _ = Some _ |- _ => learn (lookup_lt_Some _ _ _ H)
         end;
  repeat match goal with
         | H : context [length (_ ++ _)] |- _ => rewrite length_app in H
         end;
  rewrite ?length_app; cbn in *;
  try lia;
  try (eapply O1; eassumption);
  try (match goal with
       | Hi : _ !! _ = Some (sent _ (Json _)) |- _ =>
           destruct (Oshut _ _ _ Hi) as (? & ? & Hshut); simplify_eq;
           unfold socket_live in Hshut;
           repeat match goal with
                  | H : readyState _ = _ |- _ => rewrite H in Hshut
                  end;
           discriminate
       end).

Lemma one_stop_step w e w' :
  Ordered w -> one_stop w -> step w e = Some w' -> one_stop w'.
Proof.
  intros O O1 H. unfold one_stop in *. break_world w. break_ord O. cbn in O1.
  destruct e; crunch H; injection H as <-; norm_states; cbn.
  all: one_stop_goal Oshut O1.
Qed.

Lemma reachable_one_stop w : reachable w -> one_stop w.
Proof.
  intros [events H]. revert w H.
  induction events as [|e events IH] using rev_ind; intros w H.
  - injection H as <-. intros i j ws v v' Hi. done.
  - apply exec_snoc in H as (w1 & H1 & H).
    eapply one_stop_step; [|by apply IH|exact H].
    apply reachable_Ordered. by exists events.
Qed.

(** X10 (handleEndSession, onaudioprocess): every text frame ever sent
    on a socket is the stop message; once it is in the log the socket is
    closing or closed and no frame of that socket follows it. *)
Theorem stop_is_final w i ws v :
  reachable w ->
  log (platform w) !! i = Some (sent ws (Json v)) ->
  v = stop_message /\
  (socket_state w ws = CLOSING \/ socket_state w ws = CLOSED) /\
  forall j f, log (platform w) !! j = Some (sent ws f) -> (j <= i)%nat.
Proof.
  intros R H. pose proof (reachable_one_stop _ R) as O1.
  apply reachable_Ordered in R. split; [|split].
  - eapply ord_stop; eauto.
  - destruct (ord_shut _ R _ _ _ H) as (s & Hs & Hl).
    unfold socket_state. rewrite Hs. cbn.
    unfold socket_live in Hl. destruct (readyState s); try done; auto.
  - intros j [samples|v'] Hj.
    + pose proof (ord_frames _ R _ _ _ _ _ H Hj). lia.
    + by rewrite (O1 _ _ _ _ _ Hj H).
Qed.

Lemma stop_is_final_witness :
  (socket_state fetching_world 0 = CLOSING \/
   socket_state fetching_world 0 = CLOSED) /\
  forall j f, log (platform fetching_world) !! j = Some (sent 0%nat f) ->
    (j <= 10)%nat.
Proof.
  destruct (stop_is_final fetching_world 10 0 stop_message) as (_ & H1 & H2).
  - apply reachable_world_after. vm_compute. eauto.
  - vm_compute. reflexivity.
  - split; [exact H1 | exact H2].
Defined.





Ltac quiet_tail Is :=
  list_cases; simplify_eq; cbn in *; try discriminate; try done;
  forward_heap Is; simplify_eq; try done; try congruence;
  state_clash; forward_heap Is; simplify_eq; try done; try congruence.

Ltac quiet_goals Is Ic Ip Ist :=
  repeat split;
  [ intros ? ? ?;
    match goal with
    | |- socket_live ?s = false =>
        let Hv := fresh "Hv" in
        destruct (socket_live s) eqn:Hv; [exfalso|done]; quiet_tail Is
    end
  | intros ? ? ?;
    match goal with
    | |- ?c = closed => destruct c; try reflexivity; exfalso; quiet_tail Ic
    end
  | intros ? ? ?;
    match goal with
    | |- connected ?x = false =>
        let Hv := fresh "Hv" in
        destruct (connected x) eqn:Hv; [exfalso|done]; quiet_tail Ip
    end
  | intros ? ? ?;
    match goal with
    | Hl : _ !! _ = Some ?b |- ?b = false =>
        destruct b; [exfalso|done];
        list_cases; simplify_eq; try done;
        try (pose proof (Ist _ Hl)); simplify_eq; try done; try congruence
    end ].

(** X12 (cleanup effect): run in any reachable world the unmount
    cleanup leaves no running or suspended context, no connected
    processor, no live stream and no open or connecting socket; it
    changes neither interface state nor refs, sends no frame (in
    particular no stop message) and asks for no summary. *)
Theorem unmount_releases w :
  reachable w ->
  quiet (platform (run cleanup_on_unmount w)) /\
  ui (run cleanup_on_unmount w) = ui w /\
  refs (run cleanup_on_unmount w) = refs w /\
  sent_frames (log (platform (run cleanup_on_unmount w)))
    = sent_frames (log (platform w)) /\
  List.filter is_fetch_finish (log (platform (run cleanup_on_unmount w)))
    = List.filter is_fetch_finish (log (platform w)).
Proof.
  intros R%reachable_Inv.
  remember (run cleanup_on_unmount w) as w' eqn:H. symmetry in H.
  apply (f_equal Some) in H.
  break_world w. break_inv R. unfold cleanup_on_unmount in H.
  crunch H; injection H as <-; norm_states; saturate; saturate; cbn.
  all: split; [unfold quiet; cbn; quiet_goals Is Ic Ip Ist|].
  all: repeat split; try no_new_frame; try no_new_fetch.
Qed.

Lemma unmount_releases_witness :
  quiet (platform (run cleanup_on_unmount recording_world)) /\
  ui (run cleanup_on_unmount recording_world) = ui recording_world /\
  refs (run cleanup_on_unmount recording_world) = refs recording_world /\
  sent_frames (log (platform (run cleanup_on_unmount recording_world)))
    = sent_frames (log (platform recording_world)) /\
  List.filter is_fetch_finish (log (platform (run cleanup_on_unmount recording_world)))
    = List.filter is_fetch_finish (log (platform recording_world)).
Proof.
  apply unmount_releases.
  apply reachable_world_after. vm_compute. eauto.
Defined.

Lemma pcm16_sample_value n d :
  pcm16_sample (JS.Finite (n # d)) =
  if n <? Z.pos d
  then (if - Z.pos d <? n
        then (if n <? 0 then Z.quot (n * 32768) (Z.pos d)
              else Z.quot (n * 32767) (Z.pos d))
        else -32768)
  else 32767.
Proof.
  destruct (Z.ltb_spec n (Z.pos d)) as [H1|H1].
  - destruct (Z.ltb_spec (- Z.pos d) n) as [H2|H2].
    + rewrite (pcm16_sample_finite _ (n # d)).
      * unfold scale, JS.Qltb, JS.truncate, Qmult, inject_Z. cbn [Qnum Qden].
        rewrite Z.mul_1_r, Z.mul_0_l.
        destruct (Z.ltb_spec n 0); cbn [Qnum Qden]; by rewrite Pos.mul_1_r.
      * rewrite clamp_finite.
        destruct (Z.ltb_spec n (Z.pos d)); [|lia].
        destruct (Z.ltb_spec (- Z.pos d) n); [done|lia].
    + apply pcm16_sample_low. unfold Qle. cbn. lia.
  - apply pcm16_sample_high. unfold Qle. cbn. lia.
Qed.

Lemma quot_le_cross a b c d :
  0 < b -> 0 < d -> a * d <= c * b -> Z.quot a b <= Z.quot c d.
Proof.
  intros Hb Hd H.
  rewrite <- (Z.quot_mul_cancel_r a b d) by lia.
  rewrite <- (Z.quot_mul_cancel_r c d b) by lia.
  rewrite (Z.mul_comm d b). apply Z.quot_le_mono; lia.
Qed.

(** X13 (onaudioprocess, sample conversion): the conversion of a
    sample to 16 bits is monotone: a larger sample never encodes to a
    smaller integer. *)
Theorem pcm16_sample_monotone x y :
  (x <= y)%Q ->
  pcm16_sample (JS.Finite x) <= pcm16_sample (JS.Finite y).
Proof.
  destruct x as [a b], y as [c d]. unfold Qle. cbn [Qnum Qden]. intros H.
  rewrite !pcm16_sample_value.
  pose proof (quot_bounds (a * 32768) (Z.pos b) (-32768) 0).
  pose proof (quot_bounds (a * 32767) (Z.pos b) 0 32767).
  pose proof (quot_bounds (c * 32768) (Z.pos d) (-32768) 0).
  pose proof (quot_bounds (c * 32767) (Z.pos d) 0 32767).
  destruct (Z.ltb_spec a (Z.pos b)); destruct (Z.ltb_spec (- Z.pos b) a);
    destruct (Z.ltb_spec c (Z.pos d)); destruct (Z.ltb_spec (- Z.pos d) c);
    destruct (Z.ltb_spec a 0); destruct (Z.ltb_spec c 0);
    try lia; try nia;
    try (apply quot_le_cross; nia).
Qed.

Lemma pcm16_sample_monotone_witness :
  pcm16_sample (JS.Finite (-1 # 2)) <= pcm16_sample (JS.Finite (1 # 3)).
Proof. apply pcm16_sample_monotone. discriminate. Defined.

(** A capture callback on an open socket, under a running context,
    appends one binary frame to the log and changes nothing else. *)
Lemma capture_step w ws processor ctx inputData :
  processors (platform w) !! processor
    = Some (mkProcessor ctx true (Some (ws, false))) ->
  contexts (platform w) !! ctx = Some running ->
  socket_state w ws = OPEN ->
  step w (AudioProcess processor inputData)
  = Some (with_platform (add_log (sent ws (Binary (pcm16 inputData)))) w).
Proof.
  intros Hp Hc Ho. break_world w. cbn in *. model_goal.
  rewrite Hp. cbn. rewrite Hc. cbn.
  unfold socket_state in Ho. cbn in Ho. rewrite Ho. cbn. by rewrite Ho.
Qed.

Lemma capture_run w ws processor ctx buffers :
  processors (platform w) !! processor
    = Some (mkProcessor ctx true (Some (ws, false))) ->
  contexts (platform w) !! ctx = Some running ->
  socket_state w ws = OPEN ->
  exists w',
    exec w (AudioProcess processor <$> buffers) = Some w' /\
    log (platform w')
      = log (platform w) ++ ((fun d => sent ws (Binary (pcm16 d))) <$> buffers) /\
    ui w' = ui w /\ refs w' = refs w /\ task w' = task w.
Proof.
  revert w. induction buffers as [|d buffers IH]; intros w Hp Hc Ho.
  - exists w. cbn. by rewrite app_nil_r.
  - rewrite fmap_cons.
    change (exec w (AudioProcess processor d :: (AudioProcess processor <$> buffers)))
      with (match step w (AudioProcess processor d) with
            | Some w' => exec w' (AudioProcess processor <$> buffers)
            | None => None end).
    rewrite (capture_step _ _ _ _ _ Hp Hc Ho).
    destruct (IH (with_platform (add_log (sent ws (Binary (pcm16 d)))) w))
      as (w' & He & Hl & Hu & Hr & Ht); try done.
    exists w'. split; [done|]. rewrite Hl. cbn. by rewrite <- app_assoc.
Qed.

Lemma binary_frames_sent ws buffers :
  binary_frames ws ((fun d => sent ws (Binary (pcm16 d))) <$> buffers)
  = pcm16 <$> buffers.
Proof.
  induction buffers as [|d buffers IH]; cbn; [done|].
  by rewrite Nat.eqb_refl, IH.
Qed.

(** X14 (onaudioprocess): while the session records, unpaused, on an
    open socket, each capture callback sends exactly one binary frame,
    the conversion of its buffer; the frames leave in callback order and
    the callbacks change neither interface state nor refs. *)
Theorem frames_leave_in_order w ws buffers :
  reachable w ->
  session_controls (ui w) = true ->
  isPaused (ui w) = false ->
  wsRef (refs w) = Some ws ->
  socket_state w ws = OPEN ->
  exists processor w',
    exec w (AudioProcess processor <$> buffers) = Some w' /\
    binary_frames ws (log (platform w'))
      = binary_frames ws (log (platform w)) ++ (pcm16 <$> buffers) /\
    length (binary_frames ws (log (platform w')))
      = (length (binary_frames ws (log (platform w))) + length buffers)%nat /\
    ui w' = ui w /\ refs w' = refs w.
Proof.
  intros R%reachable_Inv G P Hw Ho.
  destruct (live_shape _ R G)
    as (p & ctx & ws' & st & Hp & Hctxr & Hw' & Hst & Hproc & Hctx & _).
  rewrite P in Hctx. simplify_eq.
  destruct (capture_run w ws p ctx buffers) as (w' & He & Hl & Hu & Hr & _);
    try done.
  exists p, w'. split; [done|].
  rewrite Hl, binary_frames_app, binary_frames_sent.
  repeat split; try done. by rewrite length_app, length_fmap.
Qed.

Lemma frames_leave_in_order_witness :
  exists processor w',
    exec recording_world
         (AudioProcess processor <$> [[JS.of_Z 1]; [JS.of_Z (-1); JS.of_Z 0]])
      = Some w' /\
    binary_frames 0 (log (platform w'))
      = binary_frames 0 (log (platform recording_world))
        ++ (pcm16 <$> [[JS.of_Z 1]; [JS.of_Z (-1); JS.of_Z 0]]) /\
    length (binary_frames 0 (log (platform w')))
      = (length (binary_frames 0 (log (platform recording_world))) + 2)%nat /\
    ui w' = ui recording_world /\ refs w' = refs recording_world.
Proof.
  apply (frames_leave_in_order recording_world 0
           [[JS.of_Z 1]; [JS.of_Z (-1); JS.of_Z 0]]).
  - apply reachable_world_after. vm_compute. eauto.
  - reflexivity.
  - reflexivity.
  - reflexivity.
  - reflexivity.
Defined.





